(** * densecrf_mex: the MATLAB entry point of the mean-field / TRW-S solver

    A shallow embedding of [src/include/densecrf_mex.cpp].  The single
    function of that file, [mexFunction], parses its arguments, validates
    them, allocates the three outputs and dispatches on the solver name to
    one of two external optimisers:
      - "MF":   the fully connected CRF of Kraehenbuehl and Koltun
                ([extendedDenseCRF2D]),
      - "TRWS": sequential tree-reweighted message passing ([TRWS]).

    The optimisers themselves, and the helper classes of [meanfield.h] and
    [solvers.h], are not part of the file.  The wrapper is therefore
    embedded over a record of collaborators ([Env]); the helpers the
    specification describes are modelled in separate modules ([GridIndex],
    [Energy]) whose comments say so. *)

From Stdlib Require Import ZArith List String Bool Lia Arith PeanoNat.
From Stdlib Require Import Floats.
From Stdlib Require Import Reals Lra.
Import ListNotations.

Local Open Scope Z_scope.

(** ** Machine integers *)

(** [int] is a 32-bit two's complement integer: values live in [Z] and
    every operation that can leave the range wraps around. *)
Definition INT_MAX : Z := 2147483647.

Definition int_wrap (z : Z) : Z := (z + 2^31) mod 2^32 - 2^31.

(** [const int M = im_size(0)]: conversion of an [unsigned int] to [int]. *)
Definition int_of_uint (u : Z) : Z := int_wrap u.

Definition int_mul (a b : Z) : Z := int_wrap (a * b).
Definition int_add (a b : Z) : Z := int_wrap (a + b).

(** [size_t] is a 64-bit unsigned integer. *)
Definition size_t_of_int (z : Z) : Z := z mod 2^64.

(** ** Real numbers of the program

    The program computes with [double] (and reads [float] unary costs, each
    of which is a [double]).  The wrapper only compares two of them
    ([pcost >= min_pairwise_cost]) and converts integers to them, so it is
    embedded over any type with these two operations. *)
Class RealOps (real : Type) : Type := {
  real_ge : real -> real -> bool;     (* C++ [a >= b] *)
  real_of_int : Z -> real             (* C++ [(double) n] *)
}.

(** IEEE 754 binary64, Rocq's primitive floats: [a >= b] is [b <= a], false
    as soon as one side is NaN. *)
Definition double_of_int (z : Z) : float :=
  match z with
  | Z0 => 0%float
  | Zpos _ => PrimFloat.of_uint63 (Uint63.of_Z z)
  | Zneg _ => PrimFloat.opp (PrimFloat.of_uint63 (Uint63.of_Z (- z)))
  end.

#[export] Instance double_ops : RealOps float := {
  real_ge a b := PrimFloat.leb b a;
  real_of_int := double_of_int
}.

(** Mathematical reals, for the statements about exact costs. *)
#[export] Instance exact_ops : RealOps R := {
  real_ge a b := if Rle_dec b a then true else false;
  real_of_int := IZR
}.


(** ** Failures

    Every way in which the call ends without returning to MATLAB normally.
    None of them hands outputs back to the caller. *)
Inductive failure : Type :=
| MexError (msg : string)            (* [mexErrMsgTxt(msg)] *)
| AssertionFailed (expr : string)    (* a failed [assert(expr)] *)
| DivisionByZero                     (* the trap of an integer division *)
| BadArrayNewLength                  (* [new T[n]] with a negative [n] *)
| BackendError (msg : string).       (* an error raised inside a solver *)

(** [erfunc], the error callback the TRW-S solver is created with
    (lines 7-9, 147): an error inside that solver ends the call. *)
Definition erfunc (err : string) : failure := MexError err.

(** [params.get<T>(name, default)] on an option that was, or was not, given. *)
Definition get {T : Type} (o : option T) (default : T) : T :=
  match o with
  | Some v => v
  | None => default
  end.

(** [std::string::compare]: zero exactly when the two strings are equal. *)
Definition string_compare (s t : string) : Z :=
  match String.compare s t with
  | Eq => 0
  | Lt => -1
  | Gt => 1
  end.

(** Only [CONST_KERNEL] is named by the file. *)
Inductive KernelType : Type := CONST_KERNEL.

(** [TRWSOptions]: the two fields the wrapper sets.  [None] stands for the
    value the default constructor leaves in [m_printMinIter]. *)
Record TRWSOptions : Type := {
  m_iterMax : Z;
  m_printMinIter : option Z
}.

Section DataModel.

Context {real : Type}.

(** [PairwiseWeights]: the fields the file reads. *)
Record PairwiseWeights : Type := {
  gaussian_x_stddev : real;
  gaussian_y_stddev : real;
  gaussian_weight : real;
  bilateral_x_stddev : real;
  bilateral_y_stddev : real;
  bilateral_r_stddev : real;
  bilateral_g_stddev : real;
  bilateral_b_stddev : real;
  bilateral_weight : real
}.

(** [MexParams params(1, prhs+3)]: the options structure, after parsing.
    An option that was not given is [None]. *)
Record MexParams : Type := {
  opt_debug : option bool;
  opt_iterations : option Z;
  opt_min_pairwise_cost : option real;
  opt_solver : option string;
  opt_normalization : option string; (* read by [parseNormalizationType] *)
  opt_weights : PairwiseWeights      (* read by [PairwiseWeights(params)] *)
}.

(** The arguments of [mexFunction]. *)
Record MexArgs : Type := {
  nlhs : Z;
  nrhs : Z;
  im_matrix : list Z;           (* prhs[0]: unsigned char samples *)
  unary_matrix : list real;     (* prhs[1]: float unary costs *)
  im_size : Z * Z * Z;          (* prhs[2]: three unsigned int *)
  mex_params : MexParams        (* prhs[3] *)
}.

(** [matrix<double>]: a MATLAB array, column-major. *)
Record mxArray : Type := {
  mx_rows : Z;
  mx_cols : Z;
  mx_data : list real
}.

(** *** The dense CRF, as the wrapper configures it *)

Inductive PairwisePotential : Type :=
| PairwiseGaussian (sx sy : real) (potts_weight : real)
    (kerneltype : KernelType) (normalizationtype : Z)
| PairwiseBilateral (sx sy sr sg sb : real) (image : list Z)
    (potts_weight : real) (kerneltype : KernelType) (normalizationtype : Z).

Record DenseCRF : Type := {
  crf_W : Z;
  crf_H : Z;
  crf_M : Z;                                  (* number of labels *)
  crf_unary : option (Z * Z * list real);     (* rows, columns, data *)
  crf_pairwise : list PairwisePotential
}.

(** [extendedDenseCRF2D crf(M, N, numberOfLabels)] *)
Definition newDenseCRF (W H labels : Z) : DenseCRF :=
  {| crf_W := W; crf_H := H; crf_M := labels;
     crf_unary := None; crf_pairwise := [] |}.

Definition setUnaryEnergy (crf : DenseCRF) (unary : Z * Z * list real)
  : DenseCRF :=
  {| crf_W := crf_W crf; crf_H := crf_H crf; crf_M := crf_M crf;
     crf_unary := Some unary; crf_pairwise := crf_pairwise crf |}.

Definition addPairwise (crf : DenseCRF) (p : PairwisePotential) : DenseCRF :=
  {| crf_W := crf_W crf; crf_H := crf_H crf; crf_M := crf_M crf;
     crf_unary := crf_unary crf;
     crf_pairwise := crf_pairwise crf ++ [p] |}.

(** *** The TRW-S graph, as the wrapper builds it

    A node is named by the order of its insertion; an edge is a pair of
    node names with one Potts cost. *)
Record MRF : Type := {
  mrf_labels : Z;                           (* [TypePotts::GlobalSize] *)
  mrf_nodes : list (list real);             (* [NodeData(D)] per node *)
  mrf_edges : list (nat * nat * real)       (* [EdgeData(pcost)] per edge *)
}.

Definition newMRF (labels : Z) : MRF :=
  {| mrf_labels := labels; mrf_nodes := []; mrf_edges := [] |}.

Definition AddNode (mrf : MRF) (D : list real) : MRF * nat :=
  ({| mrf_labels := mrf_labels mrf;
      mrf_nodes := mrf_nodes mrf ++ [D];
      mrf_edges := mrf_edges mrf |},
   List.length (mrf_nodes mrf)).

Definition AddEdge (mrf : MRF) (a b : nat) (cost : real) : MRF :=
  {| mrf_labels := mrf_labels mrf;
     mrf_nodes := mrf_nodes mrf;
     mrf_edges := mrf_edges mrf ++ [(a, b, cost)] |}.

(** *** What the call leaves behind *)

Inductive event : Type :=
| StartTime
| EndTime (msg : string)
| PrintMinPairwiseCost (c : real)     (* "min_pairwise_cost: %g" *)
| PrintProblemSize (M N : Z)          (* "Problem size: %d x %d" *)
| CallMap (crf : DenseCRF) (iterations : Z)
                                      (* [crf.map(iterations)] *)
| CallMinimize (mrf : MRF) (options : TRWSOptions).
                                      (* [mrf->Minimize_TRW_S(options, ...)] *)

(** The output slots [plhs[0..2]] and the observable events so far. *)
Record mexState : Type := {
  plhs : list (option mxArray);
  trace : list event
}.

Definition initial_state : mexState :=
  {| plhs := [None; None; None]; trace := [] |}.

(** *** The collaborators of the wrapper

    The classes of [meanfield.h] and [solvers.h] the file instantiates
    and the two solvers it calls.  A solver either fails or returns. *)
Record Env : Type := {
  (* [Linear2sub linear2sub(M,N); linear2sub(i)] *)
  Linear2sub : Z -> Z -> Z -> Z * Z;
  (* [UnaryCost unaryCost(unary_array, LinearIndex(M,N,L)); unaryCost(p,s)] *)
  UnaryCost : list real -> Z * Z * Z -> Z * Z -> Z -> real;
  (* [PairwiseCost pairwiseCost(image, weights, LinearIndex(M,N,C));
      pairwiseCost(p0,p1)] *)
  PairwiseCost :
    list Z -> PairwiseWeights -> Z * Z * Z -> Z * Z -> Z * Z -> real;
  (* [parseNormalizationType(params)], an enumeration value *)
  parseNormalizationType : option string -> Z;
  (* [lowestUnaryCost(unary_array, M, N, numberOfLabels)] *)
  lowestUnaryCost : list real -> Z -> Z -> Z -> real;
  (* [crf.map(iterations)] *)
  crf_map : DenseCRF -> Z -> failure + list Z;
  (* [crf.energy(map)] *)
  crf_energy : DenseCRF -> list Z -> real;
  (* [mrf->Minimize_TRW_S(options, lb, energy)] then [GetSolution]:
     lower bound, energy, label of every node *)
  Minimize_TRW_S : MRF -> TRWSOptions -> failure + (real * real * list Z)
}.

End DataModel.

Arguments PairwiseWeights : clear implicits.
Arguments MexParams : clear implicits.
Arguments MexArgs : clear implicits.
Arguments mxArray : clear implicits.
Arguments PairwisePotential : clear implicits.
Arguments DenseCRF : clear implicits.
Arguments MRF : clear implicits.
Arguments event : clear implicits.
Arguments mexState : clear implicits.
Arguments Env : clear implicits.

(** The same call with another [min_pairwise_cost] option, and with another
    number of requested outputs. *)
Definition with_min_pairwise_cost {real : Type} (args : MexArgs real)
           (c : option real) : MexArgs real :=
  let p := mex_params args in
  {| nlhs := nlhs args; nrhs := nrhs args; im_matrix := im_matrix args;
     unary_matrix := unary_matrix args; im_size := im_size args;
     mex_params :=
       {| opt_debug := opt_debug p; opt_iterations := opt_iterations p;
          opt_min_pairwise_cost := c; opt_solver := opt_solver p;
          opt_normalization := opt_normalization p;
          opt_weights := opt_weights p |} |}.

Definition with_nlhs {real : Type} (args : MexArgs real) (k : Z)
  : MexArgs real :=
  {| nlhs := k; nrhs := nrhs args; im_matrix := im_matrix args;
     unary_matrix := unary_matrix args; im_size := im_size args;
     mex_params := mex_params args |}.

(** ** The monad of the call: state, and failure that ends the call *)
Section Monad.

Context {real : Type}.

Definition mex (A : Type) : Type :=
  mexState real -> (failure + A) * mexState real.

Definition ret {A : Type} (a : A) : mex A := fun st => (inr a, st).

Definition bind {A B : Type} (c : mex A) (k : A -> mex B) : mex B :=
  fun st =>
    match c st with
    | (inl f, st') => (inl f, st')
    | (inr a, st') => k a st'
    end.

Definition raise {A : Type} (f : failure) : mex A := fun st => (inl f, st).

(** [mexErrMsgTxt] does not return. *)
Definition mexErrMsgTxt (msg : string) : mex unit := raise (MexError msg).

Definition assert (b : bool) (expr : string) : mex unit :=
  if b then ret tt else raise (AssertionFailed expr).

Definition when (b : bool) (c : mex unit) : mex unit :=
  if b then c else ret tt.

(** The outcome of a call into a solver. *)
Definition backend {A : Type} (r : failure + A) : mex A := fun st => (r, st).

Definition emit (e : event real) : mex unit :=
  fun st => (inr tt, {| plhs := plhs st; trace := trace st ++ [e] |}).

(** [a[k] = v]; nothing happens outside the array (the wrapper never
    writes there). *)
Fixpoint list_set {A : Type} (l : list A) (k : nat) (v : A) : list A :=
  match l, k with
  | [], _ => []
  | _ :: l', O => v :: l'
  | x :: l', S k' => x :: list_set l' k' v
  end.

(** [plhs[k] = a] *)
Definition set_plhs (k : nat) (a : mxArray real) : mex unit :=
  fun st =>
    (inr tt, {| plhs := list_set (plhs st) k (Some a); trace := trace st |}).

(** [a(i) = v] for the matrix [a] that was stored in [plhs[k]]: the slot
    holds the matrix's own array, so the write is seen through it. *)
Definition write_slot (slots : list (option (mxArray real)))
           (k : nat) (i : nat) (v : real) : list (option (mxArray real)) :=
  match nth k slots None with
  | Some a =>
      list_set slots k
        (Some {| mx_rows := mx_rows a; mx_cols := mx_cols a;
                 mx_data := list_set (mx_data a) i v |})
  | None => slots
  end.

Definition write_plhs (k : nat) (i : nat) (v : real) : mex unit :=
  fun st =>
    (inr tt, {| plhs := write_slot (plhs st) k i v; trace := trace st |}).

(** [for (x : l) body(x)] *)
Fixpoint for_each {A : Type} (l : list A) (body : A -> mex unit) : mex unit :=
  match l with
  | [] => ret tt
  | x :: l' => bind (body x) (fun _ => for_each l' body)
  end.

(** [a / b] on [int]: the division instruction traps when the divisor is
    zero, and when the quotient [INT_MIN / -1] does not fit. *)
Definition int_div (a b : Z) : mex Z :=
  if (b =? 0) || ((a =? - 2^31) && (b =? -1))
  then raise DivisionByZero
  else ret (Z.quot a b).

End Monad.

Declare Scope mex_scope.
Delimit Scope mex_scope with mex.
Notation "x <- c1 ;; c2" := (bind c1 (fun x => c2))
  (at level 61, c1 at next level, right associativity) : mex_scope.
Notation "' pat <- c1 ;; c2" :=
  (bind c1 (fun x => match x with pat => c2 end))
  (at level 61, pat pattern, c1 at next level, right associativity) : mex_scope.
Notation "c1 ;; c2" := (bind c1 (fun _ => c2))
  (at level 61, right associativity) : mex_scope.

(** ** [mexFunction] *)
Section Wrapper.

Context {real : Type} {ops : RealOps real}.
Variable E : Env real.

(** *** The locals read from the arguments (lines 33-46, 49) *)
Section Locals.

Variable args : MexArgs real.

Definition params : MexParams real := mex_params args.
Definition pairwiseWeights : PairwiseWeights real := opt_weights params.
Definition debug : bool := get (opt_debug params) false.
Definition iterations : Z := get (opt_iterations params) 20.
Definition min_pairwise_cost : real :=
  get (opt_min_pairwise_cost params) (real_of_int 0).
Definition solver : string := get (opt_solver params) "Not set"%string.

Definition M : Z := int_of_uint (fst (fst (im_size args))).
Definition N : Z := int_of_uint (snd (fst (im_size args))).
Definition C : Z := int_of_uint (snd (im_size args)).
Definition numVariables : Z := int_mul M N.
Definition UC : Z := int_wrap (Z.of_nat (List.length (unary_matrix args))).

Definition image : list Z := im_matrix args.
Definition unary_array : list real := unary_matrix args.

End Locals.

Local Open Scope mex_scope.

(** *** The dense CRF of the "MF" branch (lines 96-119) *)
Definition mf_crf (args : MexArgs real) (numberOfLabels : Z) : DenseCRF real :=
  let w := pairwiseWeights args in
  let crf := newDenseCRF (M args) (N args) numberOfLabels in
  let unary := (numberOfLabels, numVariables args, unary_array args) in
  let crf := setUnaryEnergy crf unary in
  let kerneltype := CONST_KERNEL in
  let normalizationtype :=
    parseNormalizationType E (opt_normalization (params args)) in
  let crf :=
    addPairwise crf
      (PairwiseGaussian (gaussian_x_stddev w) (gaussian_y_stddev w)
         (gaussian_weight w) kerneltype normalizationtype) in
  addPairwise crf
    (PairwiseBilateral (bilateral_x_stddev w) (bilateral_y_stddev w)
       (bilateral_r_stddev w) (bilateral_g_stddev w) (bilateral_b_stddev w)
       (image args) (bilateral_weight w) kerneltype normalizationtype).

(** *** The graph of the "TRWS" branch (lines 147-175)

    The state of the two construction loops: the graph, the array
    [nodes] (filled in index order, so written here as a growing list),
    and the pairs at which the pairwise oracle has been evaluated. *)
Record TRWSBuild : Type := {
  b_mrf : MRF real;
  b_nodes : list nat;
  b_evaluated : list (nat * nat)
}.

Section Build.

Variable args : MexArgs real.
Variable numberOfLabels : Z.

(** [unaryCost(p, s)] and [pairwiseCost(p0, p1)], with the index objects
    of lines 67-68 *)
Definition unaryCost (p : Z * Z) (s : Z) : real :=
  UnaryCost E (unary_array args) (M args, N args, numberOfLabels) p s.

Definition pairwiseCost (p0 p1 : Z * Z) : real :=
  PairwiseCost E (image args) (pairwiseWeights args)
    (M args, N args, C args) p0 p1.

Definition linear2sub (i : nat) : Z * Z :=
  Linear2sub E (M args) (N args) (Z.of_nat i).

(** lines 154-161: one node, with its [numberOfLabels] unary costs *)
Definition node_body (b : TRWSBuild) (i : nat) : TRWSBuild :=
  let D :=
    map (fun s => let p := linear2sub i in unaryCost p (Z.of_nat s))
        (seq 0 (Z.to_nat numberOfLabels)) in
  let '(mrf, id) := AddNode (b_mrf b) D in
  {| b_mrf := mrf; b_nodes := b_nodes b ++ [id];
     b_evaluated := b_evaluated b |}.

(** lines 167-173: one pair [(i, j)] *)
Definition edge_body (i : nat) (b : TRWSBuild) (j : nat) : TRWSBuild :=
  let p0 := linear2sub i in
  let p1 := linear2sub j in
  let pcost := pairwiseCost p0 p1 in
  let evaluated := b_evaluated b ++ [(i, j)] in
  if real_ge pcost (min_pairwise_cost args)
  then {| b_mrf := AddEdge (b_mrf b) (nth i (b_nodes b) O)
                     (nth j (b_nodes b) O) pcost;
          b_nodes := b_nodes b; b_evaluated := evaluated |}
  else {| b_mrf := b_mrf b; b_nodes := b_nodes b;
          b_evaluated := evaluated |}.

(** [for (i = 0; i < n; i++) for (j = i+1; j < n; j++)] *)
Definition edge_loops (n : nat) (b : TRWSBuild) : TRWSBuild :=
  fold_left
    (fun b i => fold_left (edge_body i) (seq (i + 1) (n - (i + 1))) b)
    (seq 0 n) b.

Definition node_loop (n : nat) (b : TRWSBuild) : TRWSBuild :=
  fold_left node_body (seq 0 n) b.

(** The graph when [Minimize_TRW_S] is called (line 177). *)
Definition trws_build : TRWSBuild :=
  let n := Z.to_nat (numVariables args) in
  let b := {| b_mrf := newMRF numberOfLabels; b_nodes := [];
              b_evaluated := [] |} in
  edge_loops n (node_loop n b).

Definition trws_options : TRWSOptions :=
  {| m_iterMax := iterations args;
     m_printMinIter :=
       if debug args then None
       else Some (int_add (iterations args) 2) |}.

End Build.

(** *** The "MF" branch (lines 94-136) *)
Definition mf_branch (args : MexArgs real) (numberOfLabels : Z) : mex unit :=
  let n := Z.to_nat (numVariables args) in
  let crf := mf_crf args numberOfLabels in
  emit (CallMap crf (iterations args)) ;;
  map <- backend (crf_map E crf (iterations args)) ;;          (* 122 *)
  for_each (seq 0 n)
    (fun i => write_plhs 0 i (real_of_int (nth i map 0%Z))) ;; (* 125-127 *)
  write_plhs 1 0 (crf_energy E crf map) ;;                     (* 129 *)
  write_plhs 2 0
    (lowestUnaryCost E (unary_array args) (M args) (N args)
       numberOfLabels) ;;                                      (* 130 *)
  when (debug args) (emit (EndTime "Solving with MF.")).       (* 132-133 *)

(** *** The "TRWS" branch (lines 139-192) *)
Definition trws_branch (args : MexArgs real) (numberOfLabels : Z)
  : mex unit :=
  let n := Z.to_nat (numVariables args) in
  let options := trws_options args in                          (* 141-145 *)
  when (numVariables args <? 0)%Z (raise BadArrayNewLength) ;; (* 148 *)
  let b := trws_build args numberOfLabels in                   (* 152-175 *)
  emit (CallMinimize (b_mrf b) options) ;;
  '(TRWSlb, TRWSenergy, solution) <-
    backend (Minimize_TRW_S E (b_mrf b) options) ;;            (* 177 *)
  for_each (seq 0 n)
    (fun i =>
       write_plhs 0 i
         (real_of_int (nth (nth i (b_nodes b) O) solution 0%Z))) ;; (* 179-180 *)
  write_plhs 1 0 TRWSenergy ;;                                 (* 182 *)
  write_plhs 2 0 TRWSlb ;;                                     (* 183 *)
  when (debug args) (emit (EndTime "Solving with TRWS.")).     (* 188-189 *)

(** *** The function *)
Definition mexFunction (args : MexArgs real) : mex unit :=
  emit StartTime ;;                                            (* 17 *)
  when (negb (nrhs args =? 4)%Z)
       (mexErrMsgTxt "Expected 3 inputs") ;;                   (* 20-21 *)
  q <- int_div (UC args) (int_mul (M args) (N args)) ;;        (* 50 *)
  let numberOfLabels := size_t_of_int q in
  assert (0 <? M args)%Z "M > 0" ;;                            (* 58 *)
  assert (0 <? N args)%Z "N > 0" ;;                            (* 59 *)
  when (negb (string_compare (solver args) "MF" =? 0)%Z
        && negb (string_compare (solver args) "TRWS" =? 0)%Z)
       (mexErrMsgTxt "Unknown solver") ;;                      (* 62-64 *)
  when (debug args)
       (emit (PrintMinPairwiseCost (min_pairwise_cost args)) ;;
        emit (PrintProblemSize (M args) (N args)) ;;
        emit (EndTime "Reading data.")) ;;                     (* 73-79 *)
  let zero := real_of_int 0 in
  let result :=
    {| mx_rows := M args; mx_cols := N args;
       mx_data := repeat zero (Z.to_nat (M args * N args)) |} in
  let scalar := {| mx_rows := 1; mx_cols := 1; mx_data := [zero] |} in
  set_plhs 0 result ;;                                         (* 85 *)
  set_plhs 1 scalar ;;                                         (* 86 *)
  set_plhs 2 scalar ;;                                         (* 87 *)
  if (string_compare (solver args) "MF" =? 0)%Z                (* 93 *)
  then mf_branch args numberOfLabels
  else if (string_compare (solver args) "TRWS" =? 0)%Z         (* 138 *)
  then trws_branch args numberOfLabels
  else ret tt.

(** *** What MATLAB sees

    A call that fails hands nothing back; a call that returns hands back
    the output slots. *)
Inductive outcome : Type :=
| Failed (f : failure)
| Returned (outputs : list (option (mxArray real))).

Definition run (args : MexArgs real) : outcome :=
  match mexFunction args initial_state with
  | (inl f, _) => Failed f
  | (inr _, st) => Returned (plhs st)
  end.

End Wrapper.

Arguments TRWSBuild : clear implicits.
Arguments outcome : clear implicits.

(** ** GridIndex: linear indices and grid coordinates *)
Module GridIndex.

(** Modelled from the spec: the class [Linear2sub] of [meanfield.h], which
    the wrapper instantiates as [Linear2sub linear2sub(M,N)] and calls as
    [linear2sub(i)], is not part of the file.  The specification (4.1)
    calls it [toCoord(i) -> (row, col)].  The layout is MATLAB's, the one
    in which the wrapper writes [result(i)] into the [M] x [N] output:
    column-major, with [M] rows.  [%] and [/] are those of [int]. *)
Definition toCoord (M N : Z) (i : Z) : Z * Z := (Z.rem i M, Z.quot i M).

(** Modelled from the spec: [toLinear(row, col) -> i], the inverse map of
    the same layout (the class [LinearIndex] of [meanfield.h]). *)
Definition toLinear (M N : Z) (p : Z * Z) : Z := fst p + snd p * M.

(** Modelled from the spec: [unaryIndex(i, label) -> k], into the
    flattened unary table; the table has [L] rows and one column per
    variable (line 97 of the wrapper maps it so). *)
Definition unaryIndex (L : Z) (i label : Z) : Z := label + i * L.

(** Modelled from the spec: [imageIndex(row, col, channel) -> k], into
    the flattened [M] x [N] x [C] image. *)
Definition imageIndex (M N : Z) (row col channel : Z) : Z :=
  row + col * M + channel * (M * N).

(** The coordinates of a grid with [M] rows and [N] columns. *)
Definition valid_coord (M N : Z) (p : Z * Z) : Prop :=
  0 <= fst p < M /\ 0 <= snd p < N.

End GridIndex.

(** ** The cost model over exact reals *)
Module Energy.

Local Open Scope R_scope.

Definition sum (l : list R) : R := fold_right Rplus 0 l.

Section CostModel.

Variable unary_array : list R.
Variable image : list Z.
Variable weights : PairwiseWeights R.
Variables M N L : Z.

(** Modelled from the spec: the UnaryCostOracle [cost(variable, label)],
    a lookup in the flattened table (the class [UnaryCost] of
    [meanfield.h] is not part of the file). *)
Definition unaryCost (i label : nat) : R :=
  nth (Z.to_nat (GridIndex.unaryIndex L (Z.of_nat i) (Z.of_nat label)))
      unary_array 0.

(** The least unary cost of variable [i] over the labels [0 .. L-1]. *)
Definition min_unary (i : nat) : R :=
  fold_left Rmin (map (unaryCost i) (seq 1 (Z.to_nat L - 1)))
            (unaryCost i 0).

(** Modelled from the spec: [lowestUnaryCost(unary_array, M, N, L)] of
    [meanfield.h], the trivial bound of 4.4: for every variable the
    minimum unary cost over the labels, summed. *)
Definition lowestUnaryCost : R :=
  sum (map min_unary (seq 0 (Z.to_nat (M * N)))).

Definition sq (x : R) : R := x * x.

Definition pixel (p : Z * Z) (channel : Z) : R :=
  IZR (nth (Z.to_nat (GridIndex.imageIndex M N (fst p) (snd p) channel))
           image 0%Z).

(** Per-axis-weighted squared distances: each axis divided by its
    standard deviation, squared, summed. *)
Definition position_dist2 (sx sy : R) (a b : Z * Z) : R :=
  sq ((IZR (fst a) - IZR (fst b)) / sx)
  + sq ((IZR (snd a) - IZR (snd b)) / sy).

Definition color_dist2 (a b : Z * Z) : R :=
  sq ((pixel a 0 - pixel b 0) / bilateral_r_stddev weights)
  + sq ((pixel a 1 - pixel b 1) / bilateral_g_stddev weights)
  + sq ((pixel a 2 - pixel b 2) / bilateral_b_stddev weights).

(** Modelled from the spec: PairwiseKernelMixture [cost(coordA, coordB)]
    of 4.3 (the class [PairwiseCost] of [meanfield.h] is not part of the
    file): a spatial Gaussian term and a spatial and appearance Gaussian
    term, each with its weight. *)
Definition pairwiseCost (a b : Z * Z) : R :=
  gaussian_weight weights
  * exp (- position_dist2 (gaussian_x_stddev weights)
             (gaussian_y_stddev weights) a b)
  + bilateral_weight weights
    * exp (- position_dist2 (bilateral_x_stddev weights)
               (bilateral_y_stddev weights) a b
           - color_dist2 a b).

Definition coord (i : nat) : Z * Z := GridIndex.toCoord M N (Z.of_nat i).

(** The Potts rule: the kernel value when the two labels disagree,
    nothing when they agree. *)
Definition potts (labeling : list nat) (i j : nat) : R :=
  if Nat.eqb (nth i labeling O) (nth j labeling O) then 0
  else pairwiseCost (coord i) (coord j).

Definition unary_energy (labeling : list nat) : R :=
  sum (map (fun i => unaryCost i (nth i labeling O))
           (seq 0 (Z.to_nat (M * N)))).

Definition pairwise_energy (labeling : list nat) : R :=
  let n := Z.to_nat (M * N) in
  sum (map (fun i =>
              sum (map (potts labeling i) (seq (i + 1) (n - (i + 1)))))
           (seq 0 n)).

(** Modelled from the spec: the EnergyFunctor of 4.4 (class
    [EnergyFunctor] of [meanfield.h]): the unary costs of the labeling,
    plus the pairwise cost of every unordered pair with disagreeing
    labels. *)
Definition energy (labeling : list nat) : R :=
  unary_energy labeling + pairwise_energy labeling.

(** One label in [0, L) for each of the [M*N] variables. *)
Definition valid_labeling (labeling : list nat) : Prop :=
  List.length labeling = Z.to_nat (M * N)
  /\ Forall (fun l => (Z.of_nat l < L)%Z) labeling.

End CostModel.

End Energy.

(** ** A runnable environment on doubles

    Stand-ins for the collaborators, to run the wrapper on concrete
    arguments.  The index maps are those of [GridIndex].  The kernel
    replaces [exp(-d)], which primitive floats do not offer, by
    [1 / (1 + d)].  The two solvers keep to the contract of section 6 of
    the specification: given the unary costs (and the kernel parameters or
    the graph) and an iteration budget, they return a label per variable,
    the energy of that labeling, and for TRW-S a lower bound.  Both label
    every variable with the first label of least unary cost, which is the
    optimum when both kernel weights are zero; they never fail, whatever
    the iteration budget. *)
Module Demo.

Definition fsum (l : list float) : float := fold_left PrimFloat.add l 0%float.

Definition UnaryCost (unary_array : list float) (dims : Z * Z * Z)
           (p : Z * Z) (s : Z) : float :=
  let '(M, N, L) := dims in
  nth (Z.to_nat (GridIndex.unaryIndex L (GridIndex.toLinear M N p) s))
      unary_array 0%float.

Definition fsq (x : float) : float := (x * x)%float.

Definition axis (a b : Z) (stddev : float) : float :=
  fsq ((double_of_int a - double_of_int b) / stddev)%float.

Definition kernel (d : float) : float := (1 / (1 + d))%float.

Definition PairwiseCost (image : list Z) (w : PairwiseWeights float)
           (dims : Z * Z * Z) (p0 p1 : Z * Z) : float :=
  let '(M, N, C) := dims in
  let pix p c := nth (Z.to_nat (GridIndex.imageIndex M N (fst p) (snd p) c))
                     image 0%Z in
  let dpos sx sy :=
    (axis (fst p0) (fst p1) sx + axis (snd p0) (snd p1) sy)%float in
  let dcol :=
    (axis (pix p0 0%Z) (pix p1 0%Z) (bilateral_r_stddev w)
     + axis (pix p0 1%Z) (pix p1 1%Z) (bilateral_g_stddev w)
     + axis (pix p0 2%Z) (pix p1 2%Z) (bilateral_b_stddev w))%float in
  (gaussian_weight w
     * kernel (dpos (gaussian_x_stddev w) (gaussian_y_stddev w))
   + bilateral_weight w
     * kernel (dpos (bilateral_x_stddev w) (bilateral_y_stddev w) + dcol))%float.

(** The first position of a least element, scanning from position [k]. *)
Fixpoint argmin_from (best : nat) (least : float) (k : nat) (l : list float)
  : nat :=
  match l with
  | [] => best
  | v :: l' =>
      if PrimFloat.ltb v least then argmin_from k v (S k) l'
      else argmin_from best least (S k) l'
  end.

Definition argmin (l : list float) : nat :=
  match l with
  | [] => O
  | v :: l' => argmin_from O v 1%nat l'
  end.

Definition column (rows : Z) (data : list float) (i : nat) : list float :=
  firstn (Z.to_nat rows) (skipn (i * Z.to_nat rows) data).

Definition lowestUnaryCost (unary_array : list float) (M N L : Z) : float :=
  fsum (map (fun i => let c := column L unary_array i in
                      nth (argmin c) c 0%float)
            (seq 0 (Z.to_nat (M * N)))).

Definition crf_map (crf : DenseCRF float) (iterations : Z)
  : failure + list Z :=
  match crf_unary crf with
  | Some (rows, cols, data) =>
      inr (map (fun i => Z.of_nat (argmin (column rows data i)))
               (seq 0 (Z.to_nat cols)))
  | None => inl (BackendError "unary energy not set")
  end.

Definition crf_energy (crf : DenseCRF float) (labels : list Z) : float :=
  match crf_unary crf with
  | Some (rows, cols, data) =>
      fsum (map (fun i => nth (Z.to_nat (nth i labels 0%Z))
                              (column rows data i) 0%float)
                (seq 0 (Z.to_nat cols)))
  | None => 0%float
  end.

Definition Minimize_TRW_S (mrf : MRF float) (options : TRWSOptions)
  : failure + (float * float * list Z) :=
  let labels := map argmin (mrf_nodes mrf) in
  let unary := fsum (map (fun D => nth (argmin D) D 0%float) (mrf_nodes mrf)) in
  let pairwise :=
    fsum (map (fun e : nat * nat * float =>
                 let '(a, b, c) := e in
                 if Nat.eqb (nth a labels O) (nth b labels O)
                 then 0%float else c)
              (mrf_edges mrf)) in
  inr (unary, (unary + pairwise)%float, map Z.of_nat labels).

Definition parseNormalizationType (o : option string) : Z := 0%Z.

(** Arguments for the examples: a call with four inputs and three
    requested outputs. *)
Definition weights (gaussian bilateral : float) : PairwiseWeights float :=
  {| gaussian_x_stddev := 1; gaussian_y_stddev := 1;
     gaussian_weight := gaussian;
     bilateral_x_stddev := 1; bilateral_y_stddev := 1;
     bilateral_r_stddev := 1; bilateral_g_stddev := 1;
     bilateral_b_stddev := 1; bilateral_weight := bilateral |}%float.

Definition call (size : Z * Z * Z) (image : list Z) (unary : list float)
           (solver : option string) (iterations : option Z)
           (min_cost : option float) (w : PairwiseWeights float)
  : MexArgs float :=
  {| nlhs := 3; nrhs := 4; im_matrix := image; unary_matrix := unary;
     im_size := size;
     mex_params :=
       {| opt_debug := None; opt_iterations := iterations;
          opt_min_pairwise_cost := min_cost; opt_solver := solver;
          opt_normalization := None; opt_weights := w |} |}.

(** A 2 x 2 grey image with two labels: the unary costs of the first
    end-to-end scenario of the specification. *)
Definition grid (solver : option string) (iterations : option Z)
           (min_cost : option float) (w : PairwiseWeights float)
  : MexArgs float :=
  call (2, 2, 3) (repeat 0%Z 12) [0; 1; 1; 0; 1; 0; 0; 1]%float
       solver iterations min_cost w.

Definition env : Env float :=
  Build_Env GridIndex.toCoord UnaryCost PairwiseCost
            parseNormalizationType lowestUnaryCost crf_map crf_energy
            Minimize_TRW_S.

End Demo.

(** ** The call in closed form

    The notions in which the properties below are stated. *)
Section Notions.

Context {real : Type} {ops : RealOps real}.
Variable E : Env real.

(** *** The checks before the dispatch (lines 17-64) *)

(** [UC/(M*N)] traps. *)
Definition traps (args : MexArgs real) : bool :=
  (numVariables args =? 0) || ((UC args =? - 2^31) && (numVariables args =? -1)).

Definition is_MF (args : MexArgs real) : bool :=
  string_compare (solver args) "MF" =? 0.

Definition is_TRWS (args : MexArgs real) : bool :=
  string_compare (solver args) "TRWS" =? 0.

(** [numberOfLabels] (line 50), when the division does not trap. *)
Definition numberOfLabels (args : MexArgs real) : Z :=
  size_t_of_int (Z.quot (UC args) (numVariables args)).

(** The failure of the checks, if any, in the order of the file. *)
Definition checks (args : MexArgs real) : option failure :=
  if negb (nrhs args =? 4) then Some (MexError "Expected 3 inputs")
  else if traps args then Some DivisionByZero
  else if negb (0 <? M args) then Some (AssertionFailed "M > 0")
  else if negb (0 <? N args) then Some (AssertionFailed "N > 0")
  else if negb (is_MF args) && negb (is_TRWS args)
       then Some (MexError "Unknown solver")
  else None.

(** The outputs as allocated by lines 81-87. *)
Definition result0 (args : MexArgs real) : mxArray real :=
  {| mx_rows := M args; mx_cols := N args;
     mx_data := repeat (real_of_int 0) (Z.to_nat (M args * N args)) |}.

Definition scalar (v : real) : mxArray real :=
  {| mx_rows := 1; mx_cols := 1; mx_data := [v] |}.

Definition allocate (args : MexArgs real)
           (slots : list (option (mxArray real)))
  : list (option (mxArray real)) :=
  list_set (list_set (list_set slots 0 (Some (result0 args)))
                     1 (Some (scalar (real_of_int 0))))
           2 (Some (scalar (real_of_int 0))).

Definition reading (args : MexArgs real) : list (event real) :=
  StartTime ::
  (if debug args
   then [PrintMinPairwiseCost (min_pairwise_cost args);
         PrintProblemSize (M args) (N args);
         EndTime "Reading data."]
   else []).

(** The three output slots after the copy loop and the two scalar
    writes of a branch. *)
Definition written (labels : nat -> real) (n : nat) (energy bound : real)
           (slots : list (option (mxArray real)))
  : list (option (mxArray real)) :=
  write_slot
    (write_slot
       (fold_left (fun s i => write_slot s 0 i (labels i)) (seq 0 n) slots)
       1 0 energy)
    2 0 bound.

Definition after_debug (debug : bool) (msg : string) : list (event real) :=
  if debug then [EndTime msg] else [].

(** The labeling matrix after the copy loop, and the outputs of a call
    that returns. *)
Definition labeling_matrix (args : MexArgs real) (labels : nat -> real)
  : mxArray real :=
  {| mx_rows := M args; mx_cols := N args;
     mx_data :=
       fold_left (fun d i => list_set d i (labels i))
                 (seq 0 (Z.to_nat (numVariables args)))
                 (repeat (real_of_int 0) (Z.to_nat (M args * N args))) |}.

Definition outputs (args : MexArgs real) (labels : nat -> real)
           (energy bound : real) : list (option (mxArray real)) :=
  [Some (labeling_matrix args labels); Some (scalar energy);
   Some (scalar bound)].

(** The labels the copy loops read (lines 126 and 180). *)
Definition labels_MF (map : list Z) (i : nat) : real :=
  real_of_int (nth i map 0).

Definition labels_TRWS (args : MexArgs real) (solution : list Z) (i : nat)
  : real :=
  real_of_int
    (nth (nth i (b_nodes (trws_build E args (numberOfLabels args))) O)
         solution 0).

(** The pairs the two loops of lines 165-166 visit, in the order of the
    visit. *)
Definition pairs (n : nat) : list (nat * nat) :=
  flat_map (fun i => map (pair i) (seq (i + 1) (n - (i + 1)))) (seq 0 n).

(** The pairwise cost of the variables [i] and [j] (lines 167-170). *)
Definition pcost (args : MexArgs real) (p : nat * nat) : real :=
  pairwiseCost E args (linear2sub E args (fst p)) (linear2sub E args (snd p)).

(** The test of line 172. *)
Definition kept (args : MexArgs real) (p : nat * nat) : bool :=
  real_ge (pcost args p) (min_pairwise_cost args).

(** The body of the two loops, at the pair [p]. *)
Definition pair_body (args : MexArgs real) (b : TRWSBuild real)
           (p : nat * nat) : TRWSBuild real :=
  edge_body E args (fst p) b (snd p).

(** The edge of the pair [p], between the nodes of its two variables. *)
Definition edge_of (args : MexArgs real) (nodes : list nat) (p : nat * nat)
  : nat * nat * real :=
  (nth (fst p) nodes O, nth (snd p) nodes O, pcost args p).

(** The edges of the graph built with the threshold [t]. *)
Definition edges_at (args : MexArgs real) (L : Z) (t : real)
  : list (nat * nat * real) :=
  mrf_edges (b_mrf (trws_build E (with_min_pairwise_cost args (Some t)) L)).

End Notions.

(** ** More notions: the node data, the solver calls, the debug flag *)

(** The same call with another [debug] option. *)
Definition with_debug {real : Type} (args : MexArgs real) (d : option bool)
  : MexArgs real :=
  let p := mex_params args in
  {| nlhs := nlhs args; nrhs := nrhs args; im_matrix := im_matrix args;
     unary_matrix := unary_matrix args; im_size := im_size args;
     mex_params :=
       {| opt_debug := d; opt_iterations := opt_iterations p;
          opt_min_pairwise_cost := opt_min_pairwise_cost p;
          opt_solver := opt_solver p;
          opt_normalization := opt_normalization p;
          opt_weights := opt_weights p |} |}.

Section MoreNotions.

Context {real : Type} {ops : RealOps real}.
Variable E : Env real.

(** The array [D] of lines 150-158 for the variable [i]: its unary cost for
    each of the [L] labels. *)
Definition node_costs (args : MexArgs real) (L : Z) (i : nat) : list real :=
  map (fun s => unaryCost E args L (linear2sub E args i) (Z.of_nat s))
      (seq 0 (Z.to_nat L)).

(** The calls into a solver among the events of a trace. *)
Definition is_solver_call (e : event real) : bool :=
  match e with
  | CallMap _ _ | CallMinimize _ _ => true
  | _ => false
  end.

Definition solver_calls (t : list (event real)) : list (event real) :=
  filter is_solver_call t.

End MoreNotions.

(** * Properties *)

(** ** Machine integers and doubles *)

Lemma int_wrap_small z : - 2^31 <= z <= INT_MAX -> int_wrap z = z.
Proof.
  unfold int_wrap, INT_MAX. intros H.
  rewrite Z.mod_small; lia.
Qed.

Lemma size_t_of_int_nonneg z : 0 <= z <= INT_MAX -> size_t_of_int z = z.
Proof.
  unfold size_t_of_int, INT_MAX. intros H.
  apply Z.mod_small. lia.
Qed.

(** *** [<=] on doubles is transitive *)

Lemma SFleb_trans x y z :
  SFleb x y = true -> SFleb y z = true -> SFleb x z = true.
Proof.
  unfold SFleb.
  destruct x as [[]|[]| |[] mx ex], y as [[]|[]| |[] my ey],
           z as [[]|[]| |[] mz ez];
    simpl; try reflexivity; try discriminate.
  all: fold (Pos.compare mx my); fold (Pos.compare my mz);
       fold (Pos.compare mx mz).
  all: destruct (Z.compare_spec ex ey), (Z.compare_spec ey ez),
                (Z.compare_spec ex ez);
       try lia; try discriminate; try reflexivity; subst.
  all: destruct (Pos.compare_spec mx my), (Pos.compare_spec my mz),
                (Pos.compare_spec mx mz);
       simpl; try lia; try discriminate; try reflexivity.
Qed.

Lemma double_le_trans (x y z : float) :
  PrimFloat.leb x y = true -> PrimFloat.leb y z = true ->
  PrimFloat.leb x z = true.
Proof.
  rewrite !leb_spec. apply SFleb_trans.
Qed.

(** ** Arrays *)

Lemma list_set_length {A : Type} (l : list A) (k : nat) (v : A) :
  List.length (list_set l k v) = List.length l.
Proof.
  revert k. induction l as [|x l IH]; intros [|k]; simpl; auto.
Qed.

Lemma list_set_middle {A : Type} (done todo : list A) (x v : A) :
  list_set (done ++ x :: todo) (List.length done) v = done ++ v :: todo.
Proof.
  induction done as [|y done IH]; simpl; [reflexivity | now rewrite IH].
Qed.

(** Writing [f i] at every index [i] of an array of [n] cells, in index
    order, leaves [f 0, ..., f (n-1)]. *)
Lemma write_all_cells {A : Type} (f : nat -> A) (n : nat) :
  forall (done todo : list A) (k : nat),
    List.length done = k -> List.length todo = n ->
    fold_left (fun d i => list_set d i (f i)) (seq k n) (done ++ todo)
    = done ++ map f (seq k n).
Proof.
  induction n as [|n IH]; intros done todo k Hd Ht; simpl.
  - destruct todo; [reflexivity | discriminate].
  - destruct todo as [|x todo]; [discriminate|].
    subst k. rewrite list_set_middle.
    replace (done ++ f (List.length done) :: todo)
      with ((done ++ [f (List.length done)]) ++ todo)
      by now rewrite <- app_assoc.
    rewrite (IH (done ++ [f (List.length done)]) todo (S (List.length done))).
    + now rewrite <- app_assoc.
    + rewrite length_app. simpl. lia.
    + simpl in Ht. lia.
Qed.

(** ** Running the wrapper *)
Section WrapperFacts.

Context {real : Type} {ops : RealOps real}.
Variable E : Env real.

Lemma for_each_write (k : nat) (f : nat -> real) (l : list nat)
      (st : mexState real) :
  for_each l (fun i => write_plhs k i (f i)) st
  = (inr tt,
     {| plhs := fold_left (fun s i => write_slot s k i (f i)) l (plhs st);
        trace := trace st |}).
Proof.
  revert st. induction l as [|i l IH]; intros st; simpl.
  - destruct st; reflexivity.
  - unfold bind at 1. unfold write_plhs at 1. rewrite IH. reflexivity.
Qed.

Lemma mf_branch_eq (args : MexArgs real) (L : Z) (st : mexState real) :
  mf_branch E args L st
  = let crf := mf_crf E args L in
    let called := trace st ++ [CallMap crf (iterations args)] in
    match crf_map E crf (iterations args) with
    | inl f => (inl f, {| plhs := plhs st; trace := called |})
    | inr map =>
        (inr tt,
         {| plhs :=
              written (fun i => real_of_int (nth i map 0))
                      (Z.to_nat (numVariables args))
                      (crf_energy E crf map)
                      (lowestUnaryCost E (unary_array args) (M args)
                         (N args) L)
                      (plhs st);
            trace := called ++ after_debug (debug args) "Solving with MF." |})
    end.
Proof.
  unfold mf_branch, written, after_debug. cbv zeta.
  unfold bind at 1. unfold emit at 1.
  unfold bind at 1. unfold backend at 1.
  destruct (crf_map E (mf_crf E args L) (iterations args)) as [f|map];
    [reflexivity|].
  unfold bind at 1. rewrite for_each_write.
  unfold bind, write_plhs, when, emit, ret. simpl.
  destruct (debug args); simpl; [reflexivity|].
  now rewrite app_nil_r.
Qed.

Lemma trws_branch_eq (args : MexArgs real) (L : Z) (st : mexState real) :
  trws_branch E args L st
  = if (numVariables args <? 0)%Z then (inl BadArrayNewLength, st)
    else
      let b := trws_build E args L in
      let called :=
        trace st ++ [CallMinimize (b_mrf b) (trws_options args)] in
      match Minimize_TRW_S E (b_mrf b) (trws_options args) with
      | inl f => (inl f, {| plhs := plhs st; trace := called |})
      | inr (lb, energy, solution) =>
          (inr tt,
           {| plhs :=
                written
                  (fun i =>
                     real_of_int (nth (nth i (b_nodes b) O) solution 0))
                  (Z.to_nat (numVariables args)) energy lb (plhs st);
              trace :=
                called ++ after_debug (debug args) "Solving with TRWS." |})
      end.
Proof.
  unfold trws_branch, written, after_debug. cbv zeta.
  unfold bind at 1. unfold when at 1.
  destruct (numVariables args <? 0)%Z; [reflexivity|].
  unfold ret at 1.
  unfold bind at 1. unfold emit at 1.
  unfold bind at 1. unfold backend at 1.
  destruct (Minimize_TRW_S E (b_mrf (trws_build E args L))
              (trws_options args)) as [f|[[lb energy] solution]];
    [reflexivity|].
  unfold bind at 1. rewrite for_each_write.
  unfold bind, write_plhs, when, emit, ret. simpl.
  destruct (debug args); simpl; [reflexivity|].
  now rewrite app_nil_r.
Qed.

Lemma mexFunction_eq (args : MexArgs real) (st : mexState real) :
  mexFunction E args st
  = match checks args with
    | Some f =>
        (inl f, {| plhs := plhs st; trace := trace st ++ [StartTime] |})
    | None =>
        let st' := {| plhs := allocate args (plhs st);
                      trace := trace st ++ reading args |} in
        if is_MF args then mf_branch E args (numberOfLabels args) st'
        else trws_branch E args (numberOfLabels args) st'
    end.
Proof.
  unfold mexFunction, checks, traps, is_MF, is_TRWS, numberOfLabels,
    allocate, reading, result0, scalar, numVariables.
  unfold bind at 1. unfold emit at 1.
  unfold bind at 1. unfold when at 1.
  destruct (nrhs args =? 4); simpl negb; cbv iota; [|reflexivity].
  unfold ret at 1.
  unfold bind at 1. unfold int_div.
  destruct ((int_mul (M args) (N args) =? 0)
            || ((UC args =? - 2 ^ 31) && (int_mul (M args) (N args) =? -1)));
    [reflexivity|].
  unfold ret at 1. cbv zeta.
  unfold bind at 1. unfold assert at 1.
  destruct (0 <? M args); simpl negb; cbv iota; [|reflexivity].
  unfold ret at 1.
  unfold bind at 1. unfold assert at 1.
  destruct (0 <? N args); simpl negb; cbv iota; [|reflexivity].
  unfold ret at 1.
  unfold bind at 1. unfold when at 1.
  destruct (string_compare (solver args) "MF" =? 0) eqn:HMF;
    simpl negb; simpl andb; cbv iota.
  - unfold ret at 1.
    unfold bind at 1. unfold when at 1.
    destruct (debug args); simpl.
    + unfold bind, emit, set_plhs. simpl.
      repeat rewrite <- app_assoc. reflexivity.
    + unfold bind, emit, set_plhs, ret. simpl. reflexivity.
  - destruct (string_compare (solver args) "TRWS" =? 0) eqn:HTRWS;
      simpl negb; cbv iota; [|reflexivity].
    unfold ret at 1.
    unfold bind at 1. unfold when at 1.
    destruct (debug args); simpl.
    + unfold bind, emit, set_plhs. simpl.
      repeat rewrite <- app_assoc. reflexivity.
    + unfold bind, emit, set_plhs, ret. simpl. reflexivity.
Qed.

End WrapperFacts.

(** ** The graph of the "TRWS" branch *)

Lemma in_pairs (n i j : nat) : In (i, j) (pairs n) <-> (i < j < n)%nat.
Proof.
  unfold pairs. rewrite in_flat_map. split.
  - intros (k & Hk & Hin). apply in_map_iff in Hin.
    destruct Hin as (j' & Heq & Hj). injection Heq as -> ->.
    apply in_seq in Hj. lia.
  - intros H. exists i. split.
    + apply in_seq. lia.
    + apply in_map. apply in_seq. lia.
Qed.

Lemma NoDup_pairs (n : nat) : NoDup (pairs n).
Proof.
  unfold pairs.
  assert (G : forall l : list nat, NoDup l ->
            NoDup (flat_map
                     (fun i => map (pair i) (seq (i + 1) (n - (i + 1)))) l)).
  { induction 1 as [|a l Ha Hl IH]; simpl; [constructor|].
    apply NoDup_app; [| exact IH |].
    - apply NoDup_map_NoDup_ForallPairs; [| apply seq_NoDup].
      intros x y _ _ Hxy. now injection Hxy.
    - intros [i j] Hin Hin'.
      apply in_map_iff in Hin. destruct Hin as (j' & Heq & _).
      injection Heq as -> ->.
      apply in_flat_map in Hin'. destruct Hin' as (k & Hk & Hin').
      apply in_map_iff in Hin'. destruct Hin' as (j' & Heq & _).
      injection Heq as -> ->. contradiction. }
  apply G, seq_NoDup.
Qed.

Lemma fold_left_flat_map {A B S : Type} (g : S -> B -> S) (h : A -> list B)
      (l : list A) (s : S) :
  fold_left g (flat_map h l) s = fold_left (fun s a => fold_left g (h a) s) l s.
Proof.
  revert s. induction l as [|a l IH]; intros s; simpl; [reflexivity|].
  now rewrite fold_left_app, IH.
Qed.

Lemma fold_left_map {A B S : Type} (g : S -> B -> S) (f : A -> B)
      (l : list A) (s : S) :
  fold_left g (map f l) s = fold_left (fun s a => g s (f a)) l s.
Proof.
  revert s. induction l as [|a l IH]; intros s; simpl; auto.
Qed.

Section TRWSFacts.

Context {real : Type} {ops : RealOps real}.
Variable E : Env real.
Variable args : MexArgs real.
Variable L : Z.

Lemma edge_loops_pairs (n : nat) (b : TRWSBuild real) :
  edge_loops E args n b = fold_left (pair_body E args) (pairs n) b.
Proof.
  unfold edge_loops, pairs. rewrite fold_left_flat_map.
  revert b. induction (seq 0 n) as [|i l IH]; intros b; simpl;
    [reflexivity|].
  now rewrite fold_left_map, IH.
Qed.

Lemma fold_pair_body (ps : list (nat * nat)) (b : TRWSBuild real) :
  let r := fold_left (pair_body E args) ps b in
  b_nodes r = b_nodes b
  /\ b_evaluated r = b_evaluated b ++ ps
  /\ mrf_labels (b_mrf r) = mrf_labels (b_mrf b)
  /\ mrf_nodes (b_mrf r) = mrf_nodes (b_mrf b)
  /\ mrf_edges (b_mrf r)
     = mrf_edges (b_mrf b) ++ map (edge_of E args (b_nodes b)) (filter (kept E args) ps).
Proof.
  revert b. induction ps as [|p ps IH]; intros b; simpl.
  - now rewrite !app_nil_r.
  - specialize (IH (pair_body E args b p)). simpl in IH.
    destruct IH as (Hn & He & Hl & Hm & Hd).
    rewrite Hn, He, Hl, Hm, Hd. clear.
    unfold pair_body, edge_body. fold (pcost E args p). fold (kept E args p).
    destruct (kept E args p), p as [i j]; simpl; rewrite <- !app_assoc;
      repeat split; reflexivity.
Qed.

Lemma fold_node_body (m : nat) :
  forall (k : nat) (b : TRWSBuild real),
    List.length (mrf_nodes (b_mrf b)) = k -> b_nodes b = seq 0 k ->
    let r := fold_left (node_body E args L) (seq k m) b in
    b_nodes r = seq 0 (k + m)
    /\ b_evaluated r = b_evaluated b
    /\ mrf_labels (b_mrf r) = mrf_labels (b_mrf b)
    /\ mrf_edges (b_mrf r) = mrf_edges (b_mrf b).
Proof.
  induction m as [|m IH]; intros k b Hlen Hnodes; simpl.
  - now rewrite Nat.add_0_r.
  - assert (Hlen' : List.length (mrf_nodes (b_mrf (node_body E args L b k)))
                    = S k).
    { unfold node_body. simpl. rewrite length_app. simpl. lia. }
    assert (Hnodes' : b_nodes (node_body E args L b k) = seq 0 (S k)).
    { unfold node_body. simpl. rewrite Hnodes, Hlen.
      symmetry. apply (seq_S k 0). }
    destruct (IH (S k) (node_body E args L b k) Hlen' Hnodes')
      as (Hn & He & Hl & Hd).
    rewrite Hn, He, Hl, Hd. now rewrite Nat.add_succ_r.
Qed.

(** The graph at line 177: node [i] is variable [i], and the edges are
    the kept pairs, in the order of the loops. *)
Lemma trws_build_eq :
  let n := Z.to_nat (numVariables args) in
  let b := trws_build E args L in
  b_nodes b = seq 0 n
  /\ b_evaluated b = pairs n
  /\ mrf_labels (b_mrf b) = L
  /\ mrf_edges (b_mrf b)
     = map (fun p => (fst p, snd p, pcost E args p)) (filter (kept E args) (pairs n)).
Proof.
  intros n b. subst b. unfold trws_build. fold n.
  rewrite edge_loops_pairs. unfold node_loop.
  set (b0 := {| b_mrf := newMRF L; b_nodes := []; b_evaluated := [] |}).
  destruct (fold_node_body n 0 b0 eq_refl eq_refl) as (Hn & He & Hl & Hd).
  destruct (fold_pair_body (pairs n)
              (fold_left (node_body E args L) (seq 0 n) b0))
    as (Hn' & He' & Hl' & _ & Hd').
  rewrite Hn', He', Hl', Hd', Hn, He, Hl, Hd. simpl.
  repeat split; try reflexivity.
  apply map_ext_in. intros [i j] Hin.
  apply filter_In in Hin. destruct Hin as [Hin _].
  apply in_pairs in Hin. unfold edge_of. simpl.
  rewrite !seq_nth by lia. reflexivity.
Qed.

End TRWSFacts.

(** ** The call as a whole *)
Section RunFacts.

Context {real : Type} {ops : RealOps real}.
Variable E : Env real.

Lemma written_allocate (args : MexArgs real) (labels : nat -> real)
      (energy bound : real) :
  written labels (Z.to_nat (numVariables args)) energy bound
          (allocate args (plhs initial_state))
  = outputs args labels energy bound.
Proof.
  unfold written, allocate, outputs, labeling_matrix, result0. simpl.
  generalize (repeat (real_of_int 0) (Z.to_nat (M args * N args))).
  induction (seq 0 (Z.to_nat (numVariables args))) as [|i l IH];
    intros d; simpl.
  - reflexivity.
  - unfold write_slot at 3. simpl. apply IH.
Qed.

(** When [M*N] fits an [int], the copy loop fills every cell of the
    labeling matrix. *)
Lemma labeling_matrix_exact (args : MexArgs real) (labels : nat -> real) :
  0 < M args -> 0 < N args -> M args * N args <= INT_MAX ->
  mx_data (labeling_matrix args labels)
  = map labels (seq 0 (Z.to_nat (M args * N args))).
Proof.
  intros HM HN Hfit. unfold labeling_matrix. simpl.
  assert (Hv : numVariables args = M args * N args).
  { unfold numVariables, int_mul. apply int_wrap_small.
    unfold INT_MAX in *. nia. }
  rewrite Hv.
  apply (write_all_cells labels (Z.to_nat (M args * N args)) [] _ 0%nat);
    [reflexivity | apply repeat_length].
Qed.

(** What MATLAB sees of a call, case by case. *)
Lemma run_eq (args : MexArgs real) :
  run E args
  = match checks args with
    | Some f => Failed f
    | None =>
        if is_MF args then
          let crf := mf_crf E args (numberOfLabels args) in
          match crf_map E crf (iterations args) with
          | inl f => Failed f
          | inr map =>
              Returned
                (outputs args (labels_MF map) (crf_energy E crf map)
                   (lowestUnaryCost E (unary_array args) (M args) (N args)
                      (numberOfLabels args)))
          end
        else if (numVariables args <? 0)%Z then Failed BadArrayNewLength
        else
          let b := trws_build E args (numberOfLabels args) in
          match Minimize_TRW_S E (b_mrf b) (trws_options args) with
          | inl f => Failed f
          | inr (lb, energy, solution) =>
              Returned (outputs args (labels_TRWS E args solution) energy lb)
          end
    end.
Proof.
  unfold run. rewrite mexFunction_eq.
  destruct (checks args) as [f|]; [reflexivity|]. cbv zeta.
  destruct (is_MF args).
  - rewrite mf_branch_eq. cbv zeta.
    destruct (crf_map E (mf_crf E args (numberOfLabels args))
                (iterations args)) as [f|map]; [reflexivity|].
    cbn [plhs]. now rewrite written_allocate.
  - rewrite trws_branch_eq.
    destruct (numVariables args <? 0)%Z; [reflexivity|]. cbv zeta.
    destruct (Minimize_TRW_S E
                (b_mrf (trws_build E args (numberOfLabels args)))
                (trws_options args)) as [f|[[lb energy] solution]];
      [reflexivity|].
    cbn [plhs]. now rewrite written_allocate.
Qed.

(** The only graph ever handed to the TRW-S solver is the one the two
    loops built. *)
Lemma minimize_called_on (args : MexArgs real) (r : failure + unit)
      (st : mexState real) (g : MRF real) (o : TRWSOptions) :
  mexFunction E args initial_state = (r, st) ->
  In (CallMinimize g o) (trace st) ->
  g = b_mrf (trws_build E args (numberOfLabels args))
  /\ o = trws_options args /\ is_TRWS args = true.
Proof.
  rewrite mexFunction_eq. unfold checks.
  destruct (negb (nrhs args =? 4)).
  { intros [= <- <-]. simpl. intuition discriminate. }
  destruct (traps args).
  { intros [= <- <-]. simpl. intuition discriminate. }
  destruct (negb (0 <? M args)).
  { intros [= <- <-]. simpl. intuition discriminate. }
  destruct (negb (0 <? N args)).
  { intros [= <- <-]. simpl. intuition discriminate. }
  destruct (is_MF args) eqn:HMF; simpl negb; simpl andb; cbv iota.
  - rewrite mf_branch_eq. cbv zeta. unfold reading, after_debug.
    destruct (crf_map E (mf_crf E args (numberOfLabels args))
                (iterations args)) as [f|map];
      intros [= <- <-]; destruct (debug args); simpl;
      intuition discriminate.
  - destruct (is_TRWS args) eqn:HT; simpl negb; cbv iota.
    2:{ intros [= <- <-]. simpl. intuition discriminate. }
    rewrite trws_branch_eq. unfold reading, after_debug.
    destruct (numVariables args <? 0)%Z.
    { intros [= <- <-]. destruct (debug args); simpl;
        intuition discriminate. }
    cbv zeta.
    destruct (Minimize_TRW_S E
                (b_mrf (trws_build E args (numberOfLabels args)))
                (trws_options args)) as [f|[[lb energy] solution]];
      intros [= <- <-]; destruct (debug args); simpl;
      intuition (try discriminate);
      match goal with
      | H : CallMinimize _ _ = CallMinimize _ _ |- _ =>
          injection H; intros; subst; auto
      end.
Qed.

End RunFacts.

(** ** C1: the pairwise graph of the TRW-S path *)

(** C1.  Whenever the wrapper calls the TRW-S solver, the graph [g] it hands
    over is the one built by the loops of lines 152-175, and its edges are
    exactly the pairs [(i, j)] of variables with [i < j] whose pairwise cost
    is [>= min_pairwise_cost], each once and each with that one cost.  The
    pairwise oracle is evaluated at exactly the pairs with [i < j]; no pair
    [(i, i)] is evaluated or becomes an edge. *)
Theorem trws_graph_exact {real : Type} {ops : RealOps real} (E : Env real)
        (args : MexArgs real) (r : failure + unit) (st : mexState real)
        (g : MRF real) (o : TRWSOptions) :
  mexFunction E args initial_state = (r, st) ->
  In (CallMinimize g o) (trace st) ->
  let n := Z.to_nat (numVariables args) in
  let b := trws_build E args (numberOfLabels args) in
  let cost i j :=
    pairwiseCost E args (linear2sub E args i) (linear2sub E args j) in
  g = b_mrf b
  /\ (forall i j c,
        In (i, j, c) (mrf_edges g)
        <-> (i < j < n)%nat /\ c = cost i j
            /\ real_ge c (min_pairwise_cost args) = true)
  /\ NoDup (map fst (mrf_edges g))
  /\ (forall i j, In (i, j) (b_evaluated b) <-> (i < j < n)%nat)
  /\ (forall i c, ~ In (i, i, c) (mrf_edges g))
  /\ (forall i, ~ In (i, i) (b_evaluated b)).
Proof.
  intros Hrun Hin n b cost.
  destruct (minimize_called_on E args r st g o Hrun Hin) as (-> & _ & _).
  destruct (trws_build_eq E args (numberOfLabels args))
    as (_ & Hev & _ & Hed).
  fold n in Hev, Hed. fold b in Hev, Hed.
  assert (Hedges : forall i j c,
             In (i, j, c) (mrf_edges (b_mrf b))
             <-> (i < j < n)%nat /\ c = cost i j
                 /\ real_ge c (min_pairwise_cost args) = true).
  { intros i j c. rewrite Hed, in_map_iff. split.
    - intros ([i' j'] & Heq & Hp). simpl in Heq. injection Heq as -> -> <-.
      apply filter_In in Hp. destruct Hp as [Hp Hk].
      apply in_pairs in Hp. auto.
    - intros (Hlt & -> & Hk). exists (i, j). split; [reflexivity|].
      apply filter_In. split; [now apply in_pairs | exact Hk]. }
  assert (Hevals : forall i j, In (i, j) (b_evaluated b) <-> (i < j < n)%nat).
  { intros i j. rewrite Hev. apply in_pairs. }
  split; [reflexivity|]. split; [exact Hedges|].
  split; [|split; [exact Hevals|split]].
  - change (NoDup (map fst (mrf_edges (b_mrf b)))).
    rewrite Hed, map_map. simpl.
    rewrite (map_ext _ (fun p => p)) by (now intros [i j]).
    rewrite map_id. apply NoDup_filter, NoDup_pairs.
  - intros i c Hi. apply Hedges in Hi. lia.
  - intros i Hi. apply Hevals in Hi. lia.
Qed.

(** On the 2 x 2 grid with a unit spatial weight and threshold 0.375, the four
    pairs of neighbours are kept and the two diagonals are not. *)
Lemma trws_graph_exact_witness :
  let args := Demo.grid (Some "TRWS"%string) None (Some 0.375%float)
                        (Demo.weights 1 0) in
  let g := b_mrf (trws_build Demo.env args 2) in
  let st := snd (mexFunction Demo.env args initial_state) in
  In (CallMinimize g (trws_options args)) (trace st)
  /\ map fst (mrf_edges g) = [(0, 1); (0, 2); (1, 3); (2, 3)]%nat
  /\ forall i c, ~ In (i, i, c) (mrf_edges g).
Proof.
  intros args g st.
  assert (Hin : In (CallMinimize g (trws_options args)) (trace st)).
  { vm_compute. right. left. reflexivity. }
  split; [exact Hin|]. split; [vm_compute; reflexivity|].
  apply (trws_graph_exact Demo.env args
           (fst (mexFunction Demo.env args initial_state)) st g
           (trws_options args)).
  - apply surjective_pairing.
  - exact Hin.
Defined.

(** ** C4: raising the threshold only removes edges *)

Lemma filter_length_mono {A : Type} (p q : A -> bool) (l : list A) :
  (forall x, In x l -> p x = true -> q x = true) ->
  (List.length (filter p l) <= List.length (filter q l))%nat.
Proof.
  induction l as [|x l IH]; intros H; simpl; [lia|].
  assert (IH' := IH (fun y Hy => H y (or_intror Hy))).
  destruct (p x) eqn:Hp.
  - rewrite (H x (or_introl eq_refl) Hp). simpl. lia.
  - destruct (q x); simpl; lia.
Qed.

Section Antitone.

Context {real : Type} {ops : RealOps real}.

(** [>=] is transitive; it is on doubles, see [double_le_trans]. *)
Hypothesis real_ge_trans :
  forall a b c : real,
    real_ge a b = true -> real_ge b c = true -> real_ge a c = true.

Variable E : Env real.
Variable args : MexArgs real.
Variable L : Z.

Lemma edges_at_eq (t : real) :
  edges_at E args L t
  = map (fun p => (fst p, snd p, pcost E args p))
        (filter (fun p => real_ge (pcost E args p) t)
                (pairs (Z.to_nat (numVariables args)))).
Proof.
  unfold edges_at.
  destruct (trws_build_eq E (with_min_pairwise_cost args (Some t)) L)
    as (_ & _ & _ & Hed).
  exact Hed.
Qed.

Lemma edges_antitone (t1 t2 : real) :
  real_ge t2 t1 = true ->
  incl (edges_at E args L t2) (edges_at E args L t1)
  /\ (List.length (edges_at E args L t2) <= List.length (edges_at E args L t1))%nat.
Proof.
  intros Hle. rewrite !edges_at_eq. split.
  - intros e He. apply in_map_iff in He. destruct He as (p & <- & Hp).
    apply in_map_iff. exists p. split; [reflexivity|].
    apply filter_In in Hp. destruct Hp as [Hp Hk].
    apply filter_In. split; [exact Hp|].
    exact (real_ge_trans _ _ _ Hk Hle).
  - rewrite !length_map. apply filter_length_mono.
    intros p _ Hk. exact (real_ge_trans _ _ _ Hk Hle).
Qed.

End Antitone.

(** C4.  For one image, one set of pairwise weights and one grid shape, and
    two thresholds [t1 <= t2] (doubles), every edge of the graph built with
    [min_pairwise_cost = t2] is an edge of the graph built with
    [min_pairwise_cost = t1], and the former graph has no more edges. *)
Theorem edge_set_antitone (E : Env float) (args : MexArgs float) (L : Z)
        (t1 t2 : float) :
  PrimFloat.leb t1 t2 = true ->
  let edges t :=
    mrf_edges (b_mrf (trws_build E (with_min_pairwise_cost args (Some t)) L)) in
  incl (edges t2) (edges t1)
  /\ (List.length (edges t2) <= List.length (edges t1))%nat.
Proof.
  intros Hle edges.
  apply (edges_antitone (ops := double_ops)).
  - intros a b c Hab Hbc. simpl in *. exact (double_le_trans _ _ _ Hbc Hab).
  - exact Hle.
Qed.

(** On the 2 x 2 grid, the thresholds 0.25 and 0.375 keep 6 and 4 edges. *)
Lemma edge_set_antitone_witness :
  let args := Demo.grid (Some "TRWS"%string) None None (Demo.weights 1 0) in
  let edges t :=
    mrf_edges
      (b_mrf (trws_build Demo.env (with_min_pairwise_cost args (Some t)) 2)) in
  PrimFloat.leb 0.25 0.375 = true
  /\ List.length (edges 0.25%float) = 6%nat
  /\ List.length (edges 0.375%float) = 4%nat
  /\ incl (edges 0.375%float) (edges 0.25%float).
Proof.
  intros args edges.
  split; [reflexivity|]. split; [vm_compute; reflexivity|].
  split; [vm_compute; reflexivity|].
  apply (edge_set_antitone Demo.env args 2 0.25 0.375). reflexivity.
Defined.

(** ** The checks of the wrapper *)

Lemma string_compare_zero (s t : string) :
  (string_compare s t =? 0) = true <-> s = t.
Proof.
  unfold string_compare. split.
  - intros H. apply String.compare_eq_iff.
    destruct (String.compare s t); simpl in H;
      [reflexivity | discriminate H | discriminate H].
  - intros <-. assert (H := String.compare_antisym s s).
    destruct (String.compare s s); simpl in H;
      [reflexivity | discriminate H | discriminate H].
Qed.

Section Checks.

Context {real : Type} {ops : RealOps real}.
Variable E : Env real.
Variable args : MexArgs real.

Lemma is_MF_iff : is_MF args = true <-> solver args = "MF"%string.
Proof. apply string_compare_zero. Qed.

Lemma is_TRWS_iff : is_TRWS args = true <-> solver args = "TRWS"%string.
Proof. apply string_compare_zero. Qed.

(** A call stopped by a check leaves the output slots empty and has
    called no solver. *)
Lemma checks_fail (f : failure) :
  checks args = Some f ->
  mexFunction E args initial_state
  = (inl f, {| plhs := [None; None; None]; trace := [StartTime] |})
  /\ run E args = Failed f.
Proof.
  intros H. split.
  - rewrite mexFunction_eq, H. reflexivity.
  - rewrite run_eq, H. reflexivity.
Qed.

Lemma traps_false : 0 < numVariables args -> traps args = false.
Proof.
  unfold traps. intros H.
  destruct (Z.eqb_spec (numVariables args) 0); [lia|].
  destruct (Z.eqb_spec (numVariables args) (-1)); [lia|].
  now rewrite andb_false_r.
Qed.

(** The arguments every check accepts. *)
Lemma checks_pass :
  nrhs args = 4 -> 0 < M args -> 0 < N args -> 0 < numVariables args ->
  solver args = "MF"%string \/ solver args = "TRWS"%string ->
  checks args = None.
Proof.
  intros Hn HM HN Hv Hs. unfold checks.
  rewrite Hn, (traps_false Hv). simpl.
  destruct (Z.ltb_spec 0 (M args)); [|lia].
  destruct (Z.ltb_spec 0 (N args)); [|lia]. simpl.
  destruct Hs as [Hs|Hs].
  - apply is_MF_iff in Hs. now rewrite Hs.
  - apply is_TRWS_iff in Hs. rewrite Hs. now rewrite andb_false_r.
Qed.

Lemma numVariables_exact :
  0 < M args -> 0 < N args -> M args * N args <= INT_MAX ->
  numVariables args = M args * N args.
Proof.
  intros HM HN Hle. unfold numVariables, int_mul.
  apply int_wrap_small. unfold INT_MAX in *. nia.
Qed.

End Checks.

(** ** C3: the solver name *)

(** C3.  The solver option is compared, character by character, with "MF"
    and "TRWS".  When it is neither (or is absent, which reads as
    "Not set"), the call fails: the output slots are still empty and no
    solver has been called.  The failure is the "Unknown solver" error
    whenever the earlier checks of the file (argument count, division,
    grid assertions) let the call get that far. *)
Theorem unknown_solver_fails {real : Type} {ops : RealOps real}
        (E : Env real) (args : MexArgs real) :
  opt_solver (mex_params args) <> Some "MF"%string ->
  opt_solver (mex_params args) <> Some "TRWS"%string ->
  exists f : failure,
    mexFunction E args initial_state
    = (inl f, {| plhs := [None; None; None]; trace := [StartTime] |})
    /\ run E args = Failed f
    /\ (nrhs args = 4 -> 0 < M args -> 0 < N args -> 0 < numVariables args ->
        f = MexError "Unknown solver").
Proof.
  intros HMF HTRWS.
  assert (H1 : is_MF args = false).
  { destruct (is_MF args) eqn:H; [|reflexivity].
    apply is_MF_iff in H. unfold solver, params in H.
    destruct (opt_solver (mex_params args)); simpl in H;
      [congruence | discriminate]. }
  assert (H2 : is_TRWS args = false).
  { destruct (is_TRWS args) eqn:H; [|reflexivity].
    apply is_TRWS_iff in H. unfold solver, params in H.
    destruct (opt_solver (mex_params args)); simpl in H;
      [congruence | discriminate]. }
  assert (Hc : exists f, checks args = Some f
             /\ (nrhs args = 4 -> 0 < M args -> 0 < N args ->
                 0 < numVariables args -> f = MexError "Unknown solver")).
  { unfold checks. rewrite H1, H2. simpl.
    destruct (Z.eqb_spec (nrhs args) 4); simpl;
      [|eexists; split; [reflexivity | intros; contradiction]].
    destruct (traps args) eqn:Ht;
      [eexists; split; [reflexivity|];
       intros _ _ _ Hv; rewrite (traps_false args Hv) in Ht; discriminate|].
    destruct (Z.ltb_spec 0 (M args)); simpl;
      [|eexists; split; [reflexivity | intros; lia]].
    destruct (Z.ltb_spec 0 (N args)); simpl;
      [|eexists; split; [reflexivity | intros; lia]].
    eexists; split; reflexivity. }
  destruct Hc as (f & Hc & Hf). exists f.
  destruct (checks_fail E args f Hc) as [Hm Hr]. auto.
Qed.

(** "mf" is not "MF", and an absent option is not a solver either. *)
Lemma unknown_solver_fails_witness :
  let args := Demo.grid (Some "mf"%string) None None (Demo.weights 0 0) in
  opt_solver (mex_params args) <> Some "MF"%string
  /\ opt_solver (mex_params args) <> Some "TRWS"%string
  /\ exists f : failure,
      mexFunction Demo.env args initial_state
      = (inl f, {| plhs := [None; None; None]; trace := [StartTime] |})
      /\ run Demo.env args = Failed f
      /\ (nrhs args = 4 -> 0 < M args -> 0 < N args -> 0 < numVariables args ->
          f = MexError "Unknown solver").
Proof.
  intros args.
  assert (H1 : opt_solver (mex_params args) <> Some "MF"%string)
    by (simpl; discriminate).
  assert (H2 : opt_solver (mex_params args) <> Some "TRWS"%string)
    by (simpl; discriminate).
  split; [exact H1|]. split; [exact H2|].
  exact (unknown_solver_fails Demo.env args H1 H2).
Defined.

Example solver_absent :
  run Demo.env (Demo.grid None None None (Demo.weights 0 0))
  = Failed (MexError "Unknown solver").
Proof. vm_compute. reflexivity. Qed.

Example solver_lower_case :
  run Demo.env (Demo.grid (Some "trws"%string) None None (Demo.weights 0 0))
  = Failed (MexError "Unknown solver").
Proof. vm_compute. reflexivity. Qed.

(** ** C7: the grid dimensions *)

(** C7.  When [M <= 0] or [N <= 0], the call fails before the outputs are
    allocated and before any solver is called.  With four arguments, the
    failure is the trap of the division [UC/(M*N)] of line 50 when the
    product is zero, and the assertion of line 58 or 59 otherwise. *)
Theorem nonpositive_grid_fails {real : Type} {ops : RealOps real}
        (E : Env real) (args : MexArgs real) :
  M args <= 0 \/ N args <= 0 ->
  exists f : failure,
    mexFunction E args initial_state
    = (inl f, {| plhs := [None; None; None]; trace := [StartTime] |})
    /\ run E args = Failed f
    /\ (nrhs args = 4 ->
        f = DivisionByZero \/ f = AssertionFailed "M > 0"
        \/ f = AssertionFailed "N > 0").
Proof.
  intros Hdim.
  assert (Hc : exists f, checks args = Some f
             /\ (nrhs args = 4 ->
                 f = DivisionByZero \/ f = AssertionFailed "M > 0"
                 \/ f = AssertionFailed "N > 0")).
  { unfold checks.
    destruct (Z.eqb_spec (nrhs args) 4); simpl;
      [|eexists; split; [reflexivity | intros; contradiction]].
    destruct (traps args); [eexists; split; [reflexivity | auto]|].
    destruct (Z.ltb_spec 0 (M args)); simpl;
      [|eexists; split; [reflexivity | auto]].
    destruct (Z.ltb_spec 0 (N args)); simpl;
      [|eexists; split; [reflexivity | auto]].
    lia. }
  destruct Hc as (f & Hc & Hf). exists f.
  destruct (checks_fail E args f Hc) as [Hm Hr]. auto.
Qed.

(** A grid with no row: the division traps. *)
Lemma nonpositive_grid_fails_witness :
  let args := Demo.call (0, 2, 3) [] [0; 1]%float (Some "MF"%string) None None
                        (Demo.weights 0 0) in
  (M args <= 0 \/ N args <= 0)
  /\ run Demo.env args = Failed DivisionByZero
  /\ exists f : failure,
      mexFunction Demo.env args initial_state
      = (inl f, {| plhs := [None; None; None]; trace := [StartTime] |})
      /\ run Demo.env args = Failed f
      /\ (nrhs args = 4 ->
          f = DivisionByZero \/ f = AssertionFailed "M > 0"
          \/ f = AssertionFailed "N > 0").
Proof.
  intros args.
  assert (H : M args <= 0 \/ N args <= 0) by (left; vm_compute; discriminate).
  split; [exact H|]. split; [vm_compute; reflexivity|].
  exact (nonpositive_grid_fails Demo.env args H).
Defined.

(** A dimension of [2^32 - 1] reads as the [int] -1: the assertion fails. *)
Example negative_dimension :
  run Demo.env (Demo.call (4294967295, 2, 3) [] [0; 1]%float
                          (Some "MF"%string) None None (Demo.weights 0 0))
  = Failed (AssertionFailed "M > 0").
Proof. vm_compute. reflexivity. Qed.

(** ** C5: the number of labels *)

(** C5, as the code has it.  With four arguments, a positive grid whose
    size fits an [int], a unary table whose size fits an [int], and a known
    solver, the checks pass whatever the remainder of the unary size by
    [M*N] is: the number of labels is the quotient rounded down, and the
    selected branch runs with it on the freshly allocated outputs. *)
Theorem label_count_is_truncated_quotient {real : Type} {ops : RealOps real}
        (E : Env real) (args : MexArgs real) :
  nrhs args = 4 -> 0 < M args -> 0 < N args ->
  M args * N args <= INT_MAX ->
  Z.of_nat (List.length (unary_matrix args)) <= INT_MAX ->
  solver args = "MF"%string \/ solver args = "TRWS"%string ->
  let L := Z.of_nat (List.length (unary_matrix args)) / (M args * N args) in
  checks args = None
  /\ numberOfLabels args = L
  /\ mexFunction E args initial_state
     = (if is_MF args then mf_branch E args L else trws_branch E args L)
         {| plhs := [Some (result0 args); Some (scalar (real_of_int 0));
                     Some (scalar (real_of_int 0))];
            trace := reading args |}.
Proof.
  intros Hn HM HN Hfit Hu Hs L.
  assert (Hv : numVariables args = M args * N args)
    by now apply numVariables_exact.
  assert (Hpos : 0 < M args * N args) by nia.
  assert (Hc : checks args = None).
  { apply checks_pass; auto. rewrite Hv. exact Hpos. }
  assert (HL : numberOfLabels args = L).
  { unfold numberOfLabels, UC. rewrite Hv.
    rewrite int_wrap_small by (unfold INT_MAX in *; lia).
    rewrite Z.quot_div_nonneg by lia.
    apply size_t_of_int_nonneg. subst L. split.
    - apply Z.div_pos; lia.
    - apply Z.le_trans with (Z.of_nat (List.length (unary_matrix args)));
        [|exact Hu].
      apply Z.div_le_upper_bound; nia. }
  split; [exact Hc|]. split; [exact HL|].
  rewrite mexFunction_eq, Hc, HL. cbv zeta.
  destruct (is_MF args); reflexivity.
Qed.

(** Three unary costs for two variables: one label, and a solve. *)
Lemma label_count_is_truncated_quotient_witness :
  let args := Demo.call (2, 1, 3) (repeat 0 6) [0; 1; 5]%float
                        (Some "MF"%string) None None (Demo.weights 0 0) in
  Z.of_nat (List.length (unary_matrix args)) mod (M args * N args) = 1
  /\ checks args = None
  /\ numberOfLabels args = 1.
Proof.
  intros args. split; [reflexivity|].
  assert (H := label_count_is_truncated_quotient Demo.env args).
  destruct H as (Hc & HL & _);
    [reflexivity | reflexivity | reflexivity | vm_compute; discriminate
     | vm_compute; discriminate | left; reflexivity |].
  split; [exact Hc | exact HL].
Defined.

(** The claim fails: the size 3 of the unary table is not a multiple of
    [M*N = 2], and the call returns its three outputs. *)
Lemma non_divisible_unary_is_solved :
  let args := Demo.call (2, 1, 3) (repeat 0 6) [0; 1; 5]%float
                        (Some "MF"%string) None None (Demo.weights 0 0) in
  Z.rem (UC args) (M args * N args) = 1
  /\ run Demo.env args
     = Returned [Some {| mx_rows := 2; mx_cols := 1; mx_data := [0; 0]%float |};
                 Some (scalar 1%float); Some (scalar 1%float)].
Proof. vm_compute. split; reflexivity. Qed.

(** ** C6: the iteration count *)




(** ** C9: the "MF" path does not read the threshold *)

(** C9.  With the solver "MF", a call and the same call with any other
    value of the [min_pairwise_cost] option (or with none) end alike: the
    same failure, or the same labeling, energy and bound. *)
Theorem mf_ignores_min_pairwise_cost {real : Type} {ops : RealOps real}
        (E : Env real) (args : MexArgs real) (c : option real) :
  solver args = "MF"%string ->
  run E (with_min_pairwise_cost args c) = run E args.
Proof.
  intros Hs. rewrite !run_eq.
  change (checks (with_min_pairwise_cost args c)) with (checks args).
  destruct (checks args) as [f|]; [reflexivity|].
  change (is_MF (with_min_pairwise_cost args c)) with (is_MF args).
  apply is_MF_iff in Hs. rewrite Hs. reflexivity.
Qed.

(** The debug trace does print the threshold; the outputs are the same. *)
Lemma mf_ignores_min_pairwise_cost_witness :
  let args := Demo.grid (Some "MF"%string) None None (Demo.weights 1 1) in
  solver args = "MF"%string
  /\ run Demo.env (with_min_pairwise_cost args (Some 7%float))
     = run Demo.env args
  /\ run Demo.env args
     = Returned [Some {| mx_rows := 2; mx_cols := 2;
                         mx_data := [0; 1; 1; 0]%float |};
                 Some (scalar 0%float); Some (scalar 0%float)].
Proof.
  intros args. split; [reflexivity|]. split.
  - apply (mf_ignores_min_pairwise_cost Demo.env args (Some 7%float)).
    reflexivity.
  - vm_compute. reflexivity.
Defined.

(** ** C10: the three outputs *)

(** C10.  The outcome of a call does not depend on the number [nlhs] of
    requested outputs, and a call that returns has filled all three output
    slots: an [M] x [N] matrix of [M*N] labels, a 1 x 1 energy and a 1 x 1
    bound. *)
Theorem outputs_assigned_whatever_nlhs {real : Type} {ops : RealOps real}
        (E : Env real) (args : MexArgs real) :
  (forall k : Z, run E (with_nlhs args k) = run E args)
  /\ (forall out : list (option (mxArray real)),
        run E args = Returned out ->
        exists (labeling : list real) (energy bound : real),
          out = [Some {| mx_rows := M args; mx_cols := N args;
                         mx_data := labeling |};
                 Some (scalar energy); Some (scalar bound)]
          /\ List.length labeling = Z.to_nat (M args * N args)).
Proof.
  split.
  - intros k. rewrite !run_eq. reflexivity.
  - assert (Hlen : forall labels,
               List.length (mx_data (labeling_matrix args labels))
               = Z.to_nat (M args * N args)).
    { intros labels. unfold labeling_matrix. simpl.
      rewrite <- (repeat_length (real_of_int 0) (Z.to_nat (M args * N args)))
        at 2.
      generalize (repeat (real_of_int 0) (Z.to_nat (M args * N args))).
      induction (seq 0 (Z.to_nat (numVariables args))) as [|i l IH];
        intros d; simpl; [reflexivity|].
      rewrite IH. apply list_set_length. }
    intros out. rewrite run_eq.
    destruct (checks args) as [f|]; [discriminate|].
    destruct (is_MF args).
    + cbv zeta.
      destruct (crf_map E (mf_crf E args (numberOfLabels args))
                  (iterations args)) as [f|map]; [discriminate|].
      intros [= <-]. unfold outputs. eexists _, _, _. split; [reflexivity|].
      apply Hlen.
    + destruct (numVariables args <? 0); [discriminate|]. cbv zeta.
      destruct (Minimize_TRW_S E
                  (b_mrf (trws_build E args (numberOfLabels args)))
                  (trws_options args)) as [f|[[lb energy] solution]];
        [discriminate|].
      intros [= <-]. unfold outputs. eexists _, _, _. split; [reflexivity|].
      apply Hlen.
Qed.

(** No output requested, three outputs assigned. *)
Example no_output_requested :
  run Demo.env
      (with_nlhs (Demo.grid (Some "TRWS"%string) None None (Demo.weights 0 0)) 0)
  = Returned [Some {| mx_rows := 2; mx_cols := 2;
                      mx_data := [0; 1; 1; 0]%float |};
              Some (scalar 0%float); Some (scalar 0%float)].
Proof. vm_compute. reflexivity. Qed.

(** ** C8: linear indices and coordinates *)

(** C8.  On a grid with [M > 0] rows and [N > 0] columns, every linear
    index [i] in [0, M*N) has coordinates on the grid, and these map back to
    [i]; and every coordinate of the grid has a linear index in [0, M*N)
    whose coordinates it is. *)
Theorem grid_index_round_trip (M N : Z) :
  0 < M -> 0 < N ->
  (forall i : Z,
      0 <= i < M * N ->
      GridIndex.valid_coord M N (GridIndex.toCoord M N i)
      /\ GridIndex.toLinear M N (GridIndex.toCoord M N i) = i)
  /\ (forall p : Z * Z,
        GridIndex.valid_coord M N p ->
        0 <= GridIndex.toLinear M N p < M * N
        /\ GridIndex.toCoord M N (GridIndex.toLinear M N p) = p).
Proof.
  intros HM HN. split.
  - intros i Hi.
    unfold GridIndex.valid_coord, GridIndex.toLinear, GridIndex.toCoord.
    simpl.
    rewrite Z.rem_mod_nonneg, Z.quot_div_nonneg by lia.
    assert (Hmod := Z.mod_pos_bound i M HM).
    assert (Hdm := Z.div_mod i M ltac:(lia)).
    assert (Hq : 0 <= i / M) by (apply Z.div_pos; lia).
    assert (Hlt : i / M < N) by (apply Z.div_lt_upper_bound; lia).
    repeat split; lia.
  - intros [row col] [Hr Hc].
    unfold GridIndex.valid_coord, GridIndex.toLinear, GridIndex.toCoord.
    simpl in *.
    assert (Hge : 0 <= row + col * M) by nia.
    split; [nia|].
    rewrite Z.rem_mod_nonneg, Z.quot_div_nonneg by lia.
    rewrite Z.mod_add, Z.div_add by lia.
    rewrite Z.mod_small, Z.div_small by lia.
    f_equal.
Qed.

Lemma grid_index_round_trip_witness :
  (0 < 2) /\ (0 < 3)
  /\ GridIndex.toCoord 2 3 5 = (1, 2)
  /\ GridIndex.toLinear 2 3 (GridIndex.toCoord 2 3 5) = 5.
Proof.
  split; [lia|]. split; [lia|]. split; [reflexivity|].
  apply (grid_index_round_trip 2 3); lia.
Defined.

(** ** C2: the trivial lower bound *)

(** The bound the "MF" path reports (line 130). *)
Lemma mf_reports_lowestUnaryCost {real : Type} {ops : RealOps real}
      (E : Env real) (args : MexArgs real)
      (out : list (option (mxArray real))) :
  solver args = "MF"%string ->
  run E args = Returned out ->
  nth 2 out None
  = Some (scalar (lowestUnaryCost E (unary_array args) (M args) (N args)
                    (numberOfLabels args))).
Proof.
  intros Hs. rewrite run_eq.
  destruct (checks args) as [f|]; [discriminate|].
  apply is_MF_iff in Hs. rewrite Hs. cbv zeta.
  destruct (crf_map E (mf_crf E args (numberOfLabels args))
              (iterations args)) as [f|map]; [discriminate|].
  intros [= <-]. reflexivity.
Qed.

Section EnergyFacts.

Local Open Scope R_scope.

Variable unary_array : list R.
Variable image : list Z.
Variable weights : PairwiseWeights R.
Variables M N L : Z.

Lemma sum_le {A : Type} (f g : A -> R) (l : list A) :
  (forall x, In x l -> f x <= g x) ->
  Energy.sum (map f l) <= Energy.sum (map g l).
Proof.
  unfold Energy.sum.
  induction l as [|x l IH]; intros H; simpl; [lra|].
  assert (H1 := H x (or_introl eq_refl)).
  assert (H2 := IH (fun y Hy => H y (or_intror Hy))).
  lra.
Qed.

Lemma sum_nonneg {A : Type} (f : A -> R) (l : list A) :
  (forall x, In x l -> 0 <= f x) -> 0 <= Energy.sum (map f l).
Proof.
  unfold Energy.sum.
  induction l as [|x l IH]; intros H; simpl; [lra|].
  assert (H1 := H x (or_introl eq_refl)).
  assert (H2 := IH (fun y Hy => H y (or_intror Hy))).
  lra.
Qed.

Lemma fold_Rmin_le (l : list R) :
  forall a x : R, x = a \/ In x l -> fold_left Rmin l a <= x.
Proof.
  induction l as [|y l IH]; intros a x H; simpl.
  - destruct H as [->|[]]. lra.
  - destruct H as [->|[->|H]].
    + apply Rle_trans with (Rmin a y); [|apply Rmin_l].
      apply IH. now left.
    + apply Rle_trans with (Rmin a x); [|apply Rmin_r].
      apply IH. now left.
    + apply IH. now right.
Qed.

Lemma min_unary_le (i label : nat) :
  (Z.of_nat label < L)%Z ->
  Energy.min_unary unary_array L i <= Energy.unaryCost unary_array L i label.
Proof.
  intros Hl. unfold Energy.min_unary. apply fold_Rmin_le.
  destruct label as [|label]; [now left | right].
  apply in_map. apply in_seq. lia.
Qed.

Lemma pairwiseCost_nonneg (a b : Z * Z) :
  0 <= gaussian_weight weights -> 0 <= bilateral_weight weights ->
  0 <= Energy.pairwiseCost image weights M N a b.
Proof.
  intros Hg Hb. unfold Energy.pairwiseCost.
  apply Rplus_le_le_0_compat; apply Rmult_le_pos; auto;
    left; apply exp_pos.
Qed.

Lemma bound_le_energy (labeling : list nat) :
  0 <= gaussian_weight weights -> 0 <= bilateral_weight weights ->
  Energy.valid_labeling M N L labeling ->
  Energy.lowestUnaryCost unary_array M N L
  <= Energy.energy unary_array image weights M N L labeling.
Proof.
  intros Hg Hb [Hlen Hall].
  unfold Energy.energy, Energy.lowestUnaryCost, Energy.unary_energy,
    Energy.pairwise_energy.
  assert (Hu : Energy.sum (map (Energy.min_unary unary_array L)
                               (seq 0 (Z.to_nat (M * N))))
               <= Energy.sum
                    (map (fun i => Energy.unaryCost unary_array L i
                                     (nth i labeling O))
                         (seq 0 (Z.to_nat (M * N))))).
  { apply sum_le. intros i Hi. apply in_seq in Hi.
    apply min_unary_le.
    rewrite Forall_forall in Hall. apply Hall.
    apply nth_In. lia. }
  assert (Hp : 0 <= Energy.sum
                      (map (fun i =>
                              Energy.sum
                                (map (Energy.potts image weights M N
                                        labeling i)
                                     (seq (i + 1)
                                          (Z.to_nat (M * N) - (i + 1)))))
                           (seq 0 (Z.to_nat (M * N))))).
  { apply sum_nonneg. intros i _. apply sum_nonneg. intros j _.
    unfold Energy.potts.
    destruct (Nat.eqb (nth i labeling O) (nth j labeling O)); [lra|].
    now apply pairwiseCost_nonneg. }
  cbv zeta. lra.
Qed.

End EnergyFacts.

(** C2, as the cost model has it.  For the cost model of a call: when both
    kernel weights are non-negative, the trivial bound (for every variable
    the least unary cost over the labels, summed) is at most the energy of
    every labeling that gives each of the [M*N] variables a label below the
    number of labels.  And when the solver is "MF" and [lowestUnaryCost] is
    that bound, the bound output of a call that returns is that bound. *)
Theorem trivial_bound_below_energy (E : Env R) (args : MexArgs R)
        (labeling : list nat) :
  let L := numberOfLabels args in
  let w := pairwiseWeights args in
  let bound := Energy.lowestUnaryCost (unary_array args) (M args) (N args) L in
  ((0 <= gaussian_weight w)%R -> (0 <= bilateral_weight w)%R ->
   Energy.valid_labeling (M args) (N args) L labeling ->
   (bound <= Energy.energy (unary_array args) (image args) w (M args) (N args)
               L labeling)%R)
  /\ (lowestUnaryCost E = Energy.lowestUnaryCost ->
      solver args = "MF"%string ->
      forall out, run E args = Returned out ->
                  nth 2 out None = Some (scalar bound)).
Proof.
  intros L w bound. split.
  - apply bound_le_energy.
  - intros Hlow Hs out Hrun.
    rewrite (mf_reports_lowestUnaryCost E args out Hs Hrun), Hlow.
    reflexivity.
Qed.

(** The first end-to-end scenario, with unit weights. *)
Lemma trivial_bound_below_energy_witness :
  let w : PairwiseWeights R :=
    {| gaussian_x_stddev := 1; gaussian_y_stddev := 1; gaussian_weight := 1;
       bilateral_x_stddev := 1; bilateral_y_stddev := 1;
       bilateral_r_stddev := 1; bilateral_g_stddev := 1;
       bilateral_b_stddev := 1; bilateral_weight := 1 |}%R in
  let unary := [0; 1; 1; 0; 1; 0; 0; 1]%R in
  let image := repeat 0%Z 12 in
  (0 <= gaussian_weight w)%R /\ (0 <= bilateral_weight w)%R
  /\ Energy.valid_labeling 2 2 2 [1; 0; 1; 0]%nat
  /\ (Energy.lowestUnaryCost unary 2 2 2
      <= Energy.energy unary image w 2 2 2 [1; 0; 1; 0]%nat)%R.
Proof.
  intros w unary image.
  assert (Hg : (0 <= gaussian_weight w)%R) by (simpl; lra).
  assert (Hb : (0 <= bilateral_weight w)%R) by (simpl; lra).
  assert (Hv : Energy.valid_labeling 2 2 2 [1; 0; 1; 0]%nat).
  { split; [reflexivity|]. repeat constructor. }
  split; [exact Hg|]. split; [exact Hb|]. split; [exact Hv|].
  pose (args := {| nlhs := 3; nrhs := 4; im_matrix := image;
                   unary_matrix := unary; im_size := (2, 2, 3);
                   mex_params :=
                     {| opt_debug := None; opt_iterations := None;
                        opt_min_pairwise_cost := None;
                        opt_solver := Some "MF"%string;
                        opt_normalization := None; opt_weights := w |} |}).
  pose (E := {| Linear2sub := GridIndex.toCoord;
                UnaryCost := fun _ _ _ _ => 0%R;
                PairwiseCost := fun _ _ _ _ _ => 0%R;
                parseNormalizationType := fun _ => 0;
                lowestUnaryCost := Energy.lowestUnaryCost;
                crf_map := fun _ _ => inr [];
                crf_energy := fun _ _ => 0%R;
                Minimize_TRW_S := fun _ _ => inr (0%R, 0%R, []) |}).
  exact (proj1 (trivial_bound_below_energy E args [1; 0; 1; 0]%nat) Hg Hb Hv).
Defined.

(** The claim fails without the condition on the weights: with a spatial
    weight of -1, two variables, two labels and unary costs all 0, the
    labeling [0, 1] has a negative energy, below the trivial bound 0. *)
Lemma negative_weight_energy_below_bound :
  let w : PairwiseWeights R :=
    {| gaussian_x_stddev := 1; gaussian_y_stddev := 1; gaussian_weight := -1;
       bilateral_x_stddev := 1; bilateral_y_stddev := 1;
       bilateral_r_stddev := 1; bilateral_g_stddev := 1;
       bilateral_b_stddev := 1; bilateral_weight := 0 |}%R in
  Energy.valid_labeling 1 2 2 [0; 1]%nat
  /\ (Energy.energy [0; 0; 0; 0] [] w 1 2 2 [0; 1]%nat
      < Energy.lowestUnaryCost [0; 0; 0; 0] 1 2 2)%R.
Proof.
  intros w. split.
  - split; [reflexivity|]. repeat constructor.
  - cbv -[Rplus Rmult Ropp Rminus Rdiv Rinv Rmin Rlt Rle exp IZR].
    rewrite !Rmin_left by lra.
    match goal with
    | |- context [(-1 * exp ?x)%R] => assert (H := exp_pos x)
    end.
    lra.
Qed.

(** * Further properties of the wrapper *)

(** ** The argument count (lines 20-21) *)

(** X1.  A call with any number of inputs other than four fails with the
    message "Expected 3 inputs", whatever the inputs are: nothing else has
    been looked at, the output slots are empty and no solver was called. *)
Theorem wrong_argument_count {real : Type} {ops : RealOps real}
        (E : Env real) (args : MexArgs real) :
  nrhs args <> 4 ->
  mexFunction E args initial_state
  = (inl (MexError "Expected 3 inputs"),
     {| plhs := [None; None; None]; trace := [StartTime] |})
  /\ run E args = Failed (MexError "Expected 3 inputs").
Proof.
  intros H. apply checks_fail. unfold checks.
  destruct (Z.eqb_spec (nrhs args) 4); [contradiction | reflexivity].
Qed.

(** Three inputs, as the message asks for, are refused. *)
Lemma wrong_argument_count_witness :
  let args :=
    {| nlhs := 3; nrhs := 3; im_matrix := []; unary_matrix := [];
       im_size := (0, 0, 0);
       mex_params := mex_params (Demo.grid None None None (Demo.weights 0 0)) |}
  in
  nrhs args <> 4
  /\ run Demo.env args = Failed (MexError "Expected 3 inputs").
Proof.
  intros args.
  assert (H : nrhs args <> 4) by (simpl; discriminate).
  split; [exact H|].
  exact (proj2 (wrong_argument_count Demo.env args H)).
Defined.

(** ** The unary matrix of the "MF" branch (lines 49-50, 97) *)

(** X3.  On a positive grid whose size fits an [int], with a unary table
    whose size fits an [int]: the matrix of [numberOfLabels] rows and
    [numVariables] columns that line 97 maps onto the unary table lies
    within the table, and one more row would not. *)
Theorem unary_matrix_within_table {real : Type} (args : MexArgs real) :
  0 < M args -> 0 < N args -> M args * N args <= INT_MAX ->
  Z.of_nat (List.length (unary_matrix args)) <= INT_MAX ->
  let size := Z.of_nat (List.length (unary_matrix args)) in
  0 <= numberOfLabels args
  /\ numberOfLabels args * numVariables args <= size
  /\ size < (numberOfLabels args + 1) * numVariables args.
Proof.
  intros HM HN Hfit Hu size.
  assert (Hv : numVariables args = M args * N args)
    by now apply numVariables_exact.
  assert (Hpos : 0 < M args * N args) by nia.
  assert (HL : numberOfLabels args = size / (M args * N args)).
  { unfold numberOfLabels, UC. rewrite Hv. fold size.
    rewrite int_wrap_small by (unfold INT_MAX in *; lia).
    rewrite Z.quot_div_nonneg by lia.
    apply size_t_of_int_nonneg. split.
    - apply Z.div_pos; lia.
    - apply Z.le_trans with size; [|exact Hu].
      apply Z.div_le_upper_bound; nia. }
  rewrite HL, Hv.
  assert (Hdm := Z.div_mod size (M args * N args) ltac:(lia)).
  assert (Hmod := Z.mod_pos_bound size (M args * N args) Hpos).
  assert (Hq : 0 <= size / (M args * N args)) by (apply Z.div_pos; lia).
  repeat split; nia.
Qed.

Lemma unary_matrix_within_table_witness :
  let args := Demo.call (2, 1, 3) (repeat 0 6) [0; 1; 5]%float
                        (Some "MF"%string) None None (Demo.weights 0 0) in
  (0 < M args) /\ (0 < N args)
  /\ numberOfLabels args * numVariables args <= 3
  /\ 3 < (numberOfLabels args + 1) * numVariables args.
Proof.
  intros args. split; [reflexivity|]. split; [reflexivity|].
  apply (unary_matrix_within_table args);
    [reflexivity | reflexivity | vm_compute; discriminate
     | vm_compute; discriminate].
Defined.

(** ** The nodes of the TRW-S graph (lines 147-162) *)

Section NodeFacts.

Context {real : Type} {ops : RealOps real}.
Variable E : Env real.
Variable args : MexArgs real.
Variable L : Z.

Lemma fold_node_body_nodes (m : nat) :
  forall (k : nat) (b : TRWSBuild real),
    mrf_nodes (b_mrf (fold_left (node_body E args L) (seq k m) b))
    = mrf_nodes (b_mrf b) ++ map (node_costs E args L) (seq k m).
Proof.
  induction m as [|m IH]; intros k b; simpl.
  - now rewrite app_nil_r.
  - rewrite IH. unfold node_body at 1. simpl.
    now rewrite <- app_assoc.
Qed.

Lemma trws_build_nodes :
  mrf_nodes (b_mrf (trws_build E args L))
  = map (node_costs E args L) (seq 0 (Z.to_nat (numVariables args))).
Proof.
  unfold trws_build. rewrite edge_loops_pairs.
  destruct (fold_pair_body E args (pairs (Z.to_nat (numVariables args)))
              (node_loop E args L (Z.to_nat (numVariables args))
                 {| b_mrf := newMRF L; b_nodes := []; b_evaluated := [] |}))
    as (_ & _ & _ & Hm & _).
  rewrite Hm. unfold node_loop. now rewrite fold_node_body_nodes.
Qed.

End NodeFacts.

(** X4.  Whenever the wrapper calls the TRW-S solver, the graph has the
    number of labels computed at line 50 and one node per variable, in the
    order of the variables; the node of variable [i] carries one cost per
    label, and the cost of label [s] is [unaryCost(linear2sub(i), s)]. *)
Theorem trws_nodes_exact {real : Type} {ops : RealOps real} (E : Env real)
        (args : MexArgs real) (r : failure + unit) (st : mexState real)
        (g : MRF real) (o : TRWSOptions) :
  mexFunction E args initial_state = (r, st) ->
  In (CallMinimize g o) (trace st) ->
  let n := Z.to_nat (numVariables args) in
  let L := numberOfLabels args in
  mrf_labels g = L
  /\ List.length (mrf_nodes g) = n
  /\ forall i : nat,
      (i < n)%nat ->
      List.length (nth i (mrf_nodes g) []) = Z.to_nat L
      /\ forall (s : nat) (d : real),
          (s < Z.to_nat L)%nat ->
          nth s (nth i (mrf_nodes g) []) d
          = unaryCost E args L (linear2sub E args i) (Z.of_nat s).
Proof.
  intros Hrun Hin n L.
  destruct (minimize_called_on E args r st g o Hrun Hin) as (-> & _ & _).
  fold L.
  destruct (trws_build_eq E args L) as (_ & _ & Hl & _).
  split; [exact Hl|].
  rewrite trws_build_nodes. fold n.
  split; [now rewrite length_map, length_seq|].
  intros i Hi.
  assert (Hnth : nth i (map (node_costs E args L) (seq 0 n)) []
                 = node_costs E args L i).
  { rewrite (nth_indep _ [] (node_costs E args L 0%nat))
      by now rewrite length_map, length_seq.
    rewrite (map_nth (node_costs E args L)), seq_nth by exact Hi.
    reflexivity. }
  rewrite Hnth. unfold node_costs.
  split; [now rewrite length_map, length_seq|].
  intros s d Hs.
  rewrite (nth_indep _ d
             (unaryCost E args L (linear2sub E args i) (Z.of_nat 0%nat)))
    by now rewrite length_map, length_seq.
  rewrite (map_nth (fun s => unaryCost E args L (linear2sub E args i)
                               (Z.of_nat s))).
  now rewrite seq_nth by exact Hs.
Qed.

(** The four nodes of the 2 x 2 grid. *)
Lemma trws_nodes_exact_witness :
  let args := Demo.grid (Some "TRWS"%string) None None (Demo.weights 1 0) in
  let g := b_mrf (trws_build Demo.env args 2) in
  let st := snd (mexFunction Demo.env args initial_state) in
  In (CallMinimize g (trws_options args)) (trace st)
  /\ mrf_nodes g = [[0; 1]; [1; 0]; [1; 0]; [0; 1]]%float
  /\ mrf_labels g = numberOfLabels args.
Proof.
  intros args g st.
  assert (Hin : In (CallMinimize g (trws_options args)) (trace st)).
  { vm_compute. right. left. reflexivity. }
  split; [exact Hin|]. split; [vm_compute; reflexivity|].
  apply (trws_nodes_exact Demo.env args
           (fst (mexFunction Demo.env args initial_state)) st g
           (trws_options args)).
  - apply surjective_pairing.
  - exact Hin.
Defined.

(** ** One solve per call (lines 93-192) *)

(** X5.  A call calls a solver at most once, and only the selected one, on
    the model of its branch and with the configured iteration count; a call
    that returns has called one. *)
Theorem one_solver_call {real : Type} {ops : RealOps real} (E : Env real)
        (args : MexArgs real) (r : failure + unit) (st : mexState real) :
  mexFunction E args initial_state = (r, st) ->
  let L := numberOfLabels args in
  (solver_calls (trace st) = []
   \/ (solver args = "MF"%string
       /\ solver_calls (trace st)
          = [CallMap (mf_crf E args L) (iterations args)])
   \/ (solver args = "TRWS"%string
       /\ solver_calls (trace st)
          = [CallMinimize (b_mrf (trws_build E args L)) (trws_options args)]))
  /\ (r = inr tt -> solver_calls (trace st) <> []).
Proof.
  intros Hrun L. subst L. rewrite mexFunction_eq in Hrun.
  unfold checks in Hrun.
  destruct (negb (nrhs args =? 4));
    [injection Hrun as <- <-; split; [now left | discriminate]|].
  destruct (traps args);
    [injection Hrun as <- <-; split; [now left | discriminate]|].
  destruct (negb (0 <? M args));
    [injection Hrun as <- <-; split; [now left | discriminate]|].
  destruct (negb (0 <? N args));
    [injection Hrun as <- <-; split; [now left | discriminate]|].
  destruct (is_MF args) eqn:HMF; simpl negb in Hrun; simpl andb in Hrun;
    cbv iota zeta in Hrun.
  - rewrite mf_branch_eq in Hrun. cbv zeta in Hrun.
    unfold reading, after_debug in Hrun.
    apply is_MF_iff in HMF.
    destruct (crf_map E (mf_crf E args (numberOfLabels args))
                (iterations args)) as [f|map];
      injection Hrun as <- <-; destruct (debug args); simpl;
      (split; [right; left; split; [exact HMF | reflexivity]
              | discriminate]).
  - destruct (is_TRWS args) eqn:HT; simpl negb in Hrun; cbv iota in Hrun;
      [|injection Hrun as <- <-; split; [now left | discriminate]].
    rewrite trws_branch_eq in Hrun. unfold reading, after_debug in Hrun.
    apply is_TRWS_iff in HT.
    destruct (numVariables args <? 0).
    { injection Hrun as <- <-. destruct (debug args); simpl;
        (split; [now left | discriminate]). }
    cbv zeta in Hrun.
    destruct (Minimize_TRW_S E
                (b_mrf (trws_build E args (numberOfLabels args)))
                (trws_options args)) as [f|[[lb energy] solution]];
      injection Hrun as <- <-; destruct (debug args); simpl;
      (split; [right; right; split; [exact HT | reflexivity]
              | discriminate]).
Qed.

Lemma one_solver_call_witness :
  let args := Demo.grid (Some "MF"%string) None None (Demo.weights 1 1) in
  let L := numberOfLabels args in
  let st := snd (mexFunction Demo.env args initial_state) in
  let r := fst (mexFunction Demo.env args initial_state) in
  r = inr tt
  /\ (solver_calls (trace st) = []
      \/ (solver args = "MF"%string
          /\ solver_calls (trace st)
             = [CallMap (mf_crf Demo.env args L) (iterations args)])
      \/ (solver args = "TRWS"%string
          /\ solver_calls (trace st)
             = [CallMinimize (b_mrf (trws_build Demo.env args L))
                             (trws_options args)]))
  /\ (r = inr tt -> solver_calls (trace st) <> []).
Proof.
  intros args L st r. split; [vm_compute; reflexivity|].
  exact (one_solver_call Demo.env args r st
           (surjective_pairing (mexFunction Demo.env args initial_state))).
Defined.

(** ** The debug flag (lines 33, 73-79, 132-133, 188-189) *)

(** X6.  Without the debug flag a call prints nothing and stops no timer:
    its events are the start of the timer and its solver call, if any. *)
Theorem quiet_without_debug {real : Type} {ops : RealOps real} (E : Env real)
        (args : MexArgs real) (r : failure + unit) (st : mexState real) :
  debug args = false ->
  mexFunction E args initial_state = (r, st) ->
  trace st = StartTime :: solver_calls (trace st).
Proof.
  intros Hd Hrun. rewrite mexFunction_eq in Hrun.
  destruct (checks args) as [f|];
    [injection Hrun as <- <-; reflexivity|].
  cbv zeta in Hrun. unfold reading, after_debug in Hrun.
  destruct (is_MF args).
  - rewrite mf_branch_eq in Hrun. cbv zeta in Hrun.
    unfold after_debug in Hrun. rewrite Hd in Hrun.
    destruct (crf_map E (mf_crf E args (numberOfLabels args))
                (iterations args)) as [f|map];
      injection Hrun as <- <-; reflexivity.
  - rewrite trws_branch_eq in Hrun. unfold after_debug in Hrun.
    rewrite Hd in Hrun.
    destruct (numVariables args <? 0);
      [injection Hrun as <- <-; reflexivity|].
    cbv zeta in Hrun.
    destruct (Minimize_TRW_S E
                (b_mrf (trws_build E args (numberOfLabels args)))
                (trws_options args)) as [f|[[lb energy] solution]];
      injection Hrun as <- <-; reflexivity.
Qed.

Lemma quiet_without_debug_witness :
  let args := Demo.grid (Some "TRWS"%string) None None (Demo.weights 1 0) in
  let st := snd (mexFunction Demo.env args initial_state) in
  debug args = false
  /\ List.length (trace st) = 2%nat
  /\ trace st = StartTime :: solver_calls (trace st).
Proof.
  intros args st. split; [reflexivity|]. split; [vm_compute; reflexivity|].
  apply (quiet_without_debug Demo.env args
           (fst (mexFunction Demo.env args initial_state)) st).
  - reflexivity.
  - apply surjective_pairing.
Defined.

(** X7.  With the solver "MF", the outcome of a call (its failure, or its
    three outputs) is the same with and without the debug flag. *)
Theorem mf_outcome_ignores_debug {real : Type} {ops : RealOps real}
        (E : Env real) (args : MexArgs real) (d : option bool) :
  solver args = "MF"%string ->
  run E (with_debug args d) = run E args.
Proof.
  intros Hs. rewrite !run_eq.
  change (checks (with_debug args d)) with (checks args).
  destruct (checks args) as [f|]; [reflexivity|].
  change (is_MF (with_debug args d)) with (is_MF args).
  apply is_MF_iff in Hs. rewrite Hs. reflexivity.
Qed.

Lemma mf_outcome_ignores_debug_witness :
  let args := Demo.grid (Some "MF"%string) None None (Demo.weights 1 1) in
  solver args = "MF"%string
  /\ List.length
       (trace (snd (mexFunction Demo.env (with_debug args (Some true))
                                initial_state))) = 6%nat
  /\ run Demo.env (with_debug args (Some true)) = run Demo.env args.
Proof.
  intros args. split; [reflexivity|]. split; [vm_compute; reflexivity|].
  apply (mf_outcome_ignores_debug Demo.env args (Some true)). reflexivity.
Defined.

(** ** The outputs of a call that returns (lines 122-130, 177-183) *)

(** X8.  In the "MF" branch, on a positive grid whose size fits an [int]:
    when [crf.map] returns the labels [map], the call returns the matrix
    whose cell [i] is [map[i]], for every variable in the order of the
    variables, the energy [crf.energy(map)] and the bound
    [lowestUnaryCost]. *)
Theorem mf_outputs_exact {real : Type} {ops : RealOps real} (E : Env real)
        (args : MexArgs real) (map : list Z) :
  nrhs args = 4 -> 0 < M args -> 0 < N args -> M args * N args <= INT_MAX ->
  solver args = "MF"%string ->
  let L := numberOfLabels args in
  let crf := mf_crf E args L in
  crf_map E crf (iterations args) = inr map ->
  run E args
  = Returned
      [Some {| mx_rows := M args; mx_cols := N args;
               mx_data :=
                 List.map (fun i => real_of_int (nth i map 0))
                          (seq 0 (Z.to_nat (M args * N args))) |};
       Some (scalar (crf_energy E crf map));
       Some (scalar (lowestUnaryCost E (unary_array args) (M args) (N args)
                       L))].
Proof.
  intros Hn HM HN Hfit Hs L crf Hmap.
  assert (Hv : numVariables args = M args * N args)
    by now apply numVariables_exact.
  rewrite run_eq.
  rewrite (checks_pass args Hn HM HN) by (rewrite ?Hv; auto; nia).
  apply is_MF_iff in Hs. rewrite Hs. cbv zeta.
  fold L. fold crf. rewrite Hmap.
  unfold outputs. f_equal. f_equal. f_equal.
  assert (Hd := labeling_matrix_exact args (labels_MF map) HM HN Hfit).
  unfold labeling_matrix in *. simpl in Hd. rewrite Hd. reflexivity.
Qed.

Lemma mf_outputs_exact_witness :
  let args := Demo.grid (Some "MF"%string) None None (Demo.weights 0 0) in
  crf_map Demo.env (mf_crf Demo.env args (numberOfLabels args))
          (iterations args)
  = inr [0; 1; 1; 0]
  /\ run Demo.env args
     = Returned
         [Some {| mx_rows := 2; mx_cols := 2;
                  mx_data := [0; 1; 1; 0]%float |};
          Some (scalar 0%float); Some (scalar 0%float)].
Proof.
  intros args.
  assert (H : crf_map Demo.env (mf_crf Demo.env args (numberOfLabels args))
                      (iterations args)
              = inr [0; 1; 1; 0]) by (vm_compute; reflexivity).
  split; [exact H|].
  rewrite (mf_outputs_exact Demo.env args [0; 1; 1; 0]);
    [ vm_compute; reflexivity | reflexivity | reflexivity | reflexivity
    | vm_compute; discriminate | reflexivity | exact H ].
Defined.

(** X9.  In the "TRWS" branch, on a positive grid whose size fits an
    [int]: when the solver returns a lower bound, an energy and a label
    per node, the call returns the matrix whose cell [i] is the label of
    the node of variable [i], that energy and that bound. *)
Theorem trws_outputs_exact {real : Type} {ops : RealOps real} (E : Env real)
        (args : MexArgs real) (lb energy : real) (solution : list Z) :
  nrhs args = 4 -> 0 < M args -> 0 < N args -> M args * N args <= INT_MAX ->
  solver args = "TRWS"%string ->
  let L := numberOfLabels args in
  Minimize_TRW_S E (b_mrf (trws_build E args L)) (trws_options args)
  = inr (lb, energy, solution) ->
  run E args
  = Returned
      [Some {| mx_rows := M args; mx_cols := N args;
               mx_data :=
                 List.map (fun i => real_of_int (nth i solution 0))
                          (seq 0 (Z.to_nat (M args * N args))) |};
       Some (scalar energy); Some (scalar lb)].
Proof.
  intros Hn HM HN Hfit Hs L Hmin.
  assert (Hv : numVariables args = M args * N args)
    by now apply numVariables_exact.
  assert (Hpos : 0 < M args * N args) by nia.
  rewrite run_eq.
  rewrite (checks_pass args Hn HM HN) by (rewrite ?Hv; auto).
  assert (HMF : is_MF args = false).
  { destruct (is_MF args) eqn:H; [|reflexivity].
    apply is_MF_iff in H. rewrite Hs in H. discriminate. }
  rewrite HMF.
  destruct (Z.ltb_spec (numVariables args) 0); [lia|]. cbv zeta.
  fold L. rewrite Hmin.
  unfold outputs. f_equal. f_equal. f_equal.
  assert (Hd := labeling_matrix_exact args (labels_TRWS E args solution)
                  HM HN Hfit).
  unfold labeling_matrix in *. simpl in Hd. rewrite Hd.
  f_equal. apply map_ext_in. intros i Hi. apply in_seq in Hi.
  unfold labels_TRWS.
  destruct (trws_build_eq E args (numberOfLabels args)) as (Hnodes & _).
  rewrite Hnodes, Hv, seq_nth by lia. reflexivity.
Qed.

Lemma trws_outputs_exact_witness :
  let args := Demo.grid (Some "TRWS"%string) None None (Demo.weights 0 0) in
  Minimize_TRW_S Demo.env
    (b_mrf (trws_build Demo.env args (numberOfLabels args)))
    (trws_options args)
  = inr (0%float, 0%float, [0; 1; 1; 0])
  /\ run Demo.env args
     = Returned
         [Some {| mx_rows := 2; mx_cols := 2;
                  mx_data := [0; 1; 1; 0]%float |};
          Some (scalar 0%float); Some (scalar 0%float)].
Proof.
  intros args.
  assert (H : Minimize_TRW_S Demo.env
                (b_mrf (trws_build Demo.env args (numberOfLabels args)))
                (trws_options args)
              = inr (0%float, 0%float, [0; 1; 1; 0]))
    by (vm_compute; reflexivity).
  split; [exact H|].
  rewrite (trws_outputs_exact Demo.env args 0%float 0%float [0; 1; 1; 0]);
    [ vm_compute; reflexivity | reflexivity | reflexivity | reflexivity
    | vm_compute; discriminate | reflexivity | exact H ].
Defined.

(** ** The cost of the enumeration (lines 165-175) *)

Lemma pairs_from_length (n k : nat) :
  forall a : nat,
    (a + k = n)%nat ->
    (2 * List.length
           (flat_map (fun i => List.map (pair i) (seq (i + 1) (n - (i + 1))))
                     (seq a k))
     = k * (k - 1))%nat.
Proof.
  induction k as [|k IH]; intros a Ha; simpl; [reflexivity|].
  rewrite length_app, length_map, length_seq.
  assert (H := IH (S a) ltac:(lia)).
  replace (n - (a + 1))%nat with k by lia.
  rewrite Nat.sub_0_r. nia.
Qed.

(** X10.  For [n] variables the two loops evaluate the pairwise oracle
    [n (n - 1) / 2] times, whatever the threshold, and add at most that
    many edges. *)
Theorem pairwise_enumeration_is_quadratic {real : Type} {ops : RealOps real}
        (E : Env real) (args : MexArgs real) (L : Z) :
  let n := Z.to_nat (numVariables args) in
  let b := trws_build E args L in
  (2 * List.length (b_evaluated b) = n * (n - 1))%nat
  /\ (List.length (mrf_edges (b_mrf b)) <= List.length (b_evaluated b))%nat.
Proof.
  intros n b.
  destruct (trws_build_eq E args L) as (_ & Hev & _ & Hed).
  fold n in Hev, Hed. fold b in Hev, Hed. rewrite Hev, Hed. split.
  - unfold pairs. apply pairs_from_length. lia.
  - rewrite length_map. apply filter_length_le.
Qed.

(** ** Costs that are not numbers (line 172) *)

Lemma SFeqb_refl (x : spec_float) : x <> S754_nan -> SFeqb x x = true.
Proof.
  unfold SFeqb. destruct x as [[]|[]| |[] m e]; simpl; intros H;
    try reflexivity; try congruence;
    now rewrite Z.compare_refl, Pos.compare_cont_refl.
Qed.

Lemma double_le_not_nan (x y : float) :
  PrimFloat.leb x y = true ->
  PrimFloat.is_nan x = false /\ PrimFloat.is_nan y = false.
Proof.
  unfold PrimFloat.is_nan. rewrite leb_spec, !eqb_spec. intros H.
  split; rewrite SFeqb_refl; try reflexivity; intros Hnan;
    rewrite Hnan in H; unfold SFleb in H; simpl in H;
    try discriminate H.
  destruct (Prim2SF x); discriminate H.
Qed.

(** X11.  On doubles, a pair whose pairwise cost is NaN is never an edge,
    and with a threshold that is NaN the graph has no edge at all. *)
Theorem nan_is_never_an_edge (E : Env float) (args : MexArgs float) (L : Z) :
  let edges := mrf_edges (b_mrf (trws_build E args L)) in
  (forall (i j : nat) (c : float),
      In (i, j, c) edges -> PrimFloat.is_nan c = false)
  /\ (PrimFloat.is_nan (min_pairwise_cost args) = true -> edges = []).
Proof.
  intros edges. subst edges.
  destruct (trws_build_eq E args L) as (_ & _ & _ & Hed). rewrite Hed.
  split.
  - intros i j c Hin. apply in_map_iff in Hin.
    destruct Hin as (p & Heq & Hp). injection Heq as _ _ <-.
    apply filter_In in Hp. destruct Hp as [_ Hk].
    unfold kept in Hk. simpl in Hk.
    now apply double_le_not_nan in Hk.
  - intros Hnan. clear Hed.
    assert (Hnone : forall l, filter (kept E args) l = []).
    { induction l as [|p l IH]; [reflexivity|].
      cbn [filter]. rewrite IH.
      destruct (kept E args p) eqn:Hk; [|reflexivity].
      unfold kept in Hk. simpl in Hk.
      apply double_le_not_nan in Hk. destruct Hk as [Hk _].
      rewrite Hk in Hnan. discriminate. }
    now rewrite Hnone.
Qed.

Example nan_threshold_no_edge :
  mrf_edges
    (b_mrf (trws_build Demo.env
              (Demo.grid (Some "TRWS"%string) None (Some PrimFloat.nan)
                         (Demo.weights 1 0)) 2))
  = [].
Proof. vm_compute. reflexivity. Qed.

(** ** What each branch consults *)

(** X12.  The "MF" branch consults only the dense solver, the
    normalization parser and [lowestUnaryCost]: two environments that
    agree on these give the same outcome, whatever their cost oracles and
    their TRW-S solver.  The "TRWS" branch consults only the index map, the
    two cost oracles and the TRW-S solver. *)
Theorem branches_are_separate {real : Type} {ops : RealOps real}
        (E1 E2 : Env real) (args : MexArgs real) :
  (solver args = "MF"%string ->
   parseNormalizationType E1 = parseNormalizationType E2 ->
   crf_map E1 = crf_map E2 -> crf_energy E1 = crf_energy E2 ->
   lowestUnaryCost E1 = lowestUnaryCost E2 ->
   run E1 args = run E2 args)
  /\ (solver args = "TRWS"%string ->
      Linear2sub E1 = Linear2sub E2 -> UnaryCost E1 = UnaryCost E2 ->
      PairwiseCost E1 = PairwiseCost E2 ->
      Minimize_TRW_S E1 = Minimize_TRW_S E2 ->
      run E1 args = run E2 args).
Proof.
  split.
  - intros Hs Hp Hm He Hl. rewrite !run_eq.
    destruct (checks args) as [f|]; [reflexivity|].
    apply is_MF_iff in Hs. rewrite Hs. cbv zeta.
    assert (Hcrf : mf_crf E1 args (numberOfLabels args)
                   = mf_crf E2 args (numberOfLabels args)).
    { unfold mf_crf. now rewrite Hp. }
    rewrite Hcrf, Hm, He, Hl. reflexivity.
  - intros Hs Hl Hu Hp Hm. rewrite !run_eq.
    destruct (checks args) as [f|]; [reflexivity|].
    assert (HMF : is_MF args = false).
    { destruct (is_MF args) eqn:H; [|reflexivity].
      apply is_MF_iff in H. rewrite Hs in H. discriminate. }
    rewrite HMF.
    destruct (numVariables args <? 0); [reflexivity|]. cbv zeta.
    assert (Hb : trws_build E1 args (numberOfLabels args)
                 = trws_build E2 args (numberOfLabels args)).
    { unfold trws_build, node_loop, edge_loops, node_body, edge_body,
        unaryCost, pairwiseCost, linear2sub.
      now rewrite Hl, Hu, Hp. }
    unfold labels_TRWS. rewrite Hb, Hm. reflexivity.
Qed.

(** An environment with another pairwise oracle and a TRW-S solver that
    always fails gives the same "MF" outcome. *)
Lemma branches_are_separate_witness :
  let args := Demo.grid (Some "MF"%string) None None (Demo.weights 1 1) in
  let E2 : Env float :=
    {| Linear2sub := Linear2sub Demo.env;
       UnaryCost := UnaryCost Demo.env;
       PairwiseCost := fun _ _ _ _ _ => 5%float;
       parseNormalizationType := parseNormalizationType Demo.env;
       lowestUnaryCost := lowestUnaryCost Demo.env;
       crf_map := crf_map Demo.env;
       crf_energy := crf_energy Demo.env;
       Minimize_TRW_S := fun _ _ => inl (BackendError "no solver") |} in
  solver args = "MF"%string
  /\ run Demo.env args = run E2 args.
Proof.
  intros args E2. split; [reflexivity|].
  apply (proj1 (branches_are_separate Demo.env E2 args)); reflexivity.
Defined.
